(** * Smart Inventory backend: request handlers, store and generation client

    A shallow embedding of the Express backend (the route handlers of the
    main server file), of the AI service module ([generateDescription]), of
    the [products] table the handlers query and of the event handlers of
    the two pages that call the API, followed by the properties proved
    about them.

    Modelling conventions.
    - A JavaScript string is the list of its UTF-16 code units; the bound
      of a [VARCHAR] column counts characters, a surrogate pair being one.
    - The text encoding between the driver and the database is outside
      the store: the table holds the strings it is sent.  PostgreSQL
      refuses text with U+0000 and the driver replaces a surrogate that
      has no partner, so a statement about the text that is stored is
      made of [plain_text], which has neither.
    - The handlers are [async] functions; every [await] is a step of a
      state-and-exception monad over [World].  [handle] serves one
      request from its first statement to its answer.  Module
      [Interleaved] gives the generate-description handler, the only one
      with more than one [await], with what the server does for other
      requests while it awaits the remote call.
    - What the environment decides (whether the database raises an
      unexpected failure, what the remote model answers, the clock, how the
      database reads an integer literal) is an oracle of [Env]. *)

From Stdlib Require Import String Ascii.
From Stdlib Require Import ZArith NArith List Bool Lia.
From Stdlib Require Import Permutation Sorted QArith.
Import ListNotations.

Set Implicit Arguments.
Open Scope Z_scope.

(* ================================================================== *)
(** ** JavaScript strings and values *)

Module Js.

Definition code_unit := N.
Definition jsstring := list code_unit.

(** A literal of the source, as code units (the literals are ASCII). *)
Fixpoint lit (s : string) : jsstring :=
  match s with
  | EmptyString => []
  | String a r => N_of_ascii a :: lit r
  end.

(** ECMAScript [WhiteSpace] and [LineTerminator] code points: what
    [String.prototype.trim] strips. *)
Definition is_white_space (c : code_unit) : bool :=
  ((9 <=? c) && (c <=? 13)            (* TAB LF VT FF CR *)
   || (c =? 32)                        (* SPACE *)
   || (c =? 160)                       (* NO-BREAK SPACE *)
   || (c =? 0x1680)
   || ((0x2000 <=? c) && (c <=? 0x200A))
   || (c =? 0x2028) || (c =? 0x2029)   (* LS PS *)
   || (c =? 0x202F) || (c =? 0x205F)
   || (c =? 0x3000)
   || (c =? 0xFEFF))%N.                (* BOM *)

(** The two halves of a character outside the Basic Multilingual Plane. *)
Definition is_high_surrogate (c : code_unit) : bool :=
  ((0xD800 <=? c) && (c <=? 0xDBFF))%N.

Definition is_low_surrogate (c : code_unit) : bool :=
  ((0xDC00 <=? c) && (c <=? 0xDFFF))%N.

(** The characters of a string: a high surrogate followed by a low one is
    one character, any other code unit is one character. *)
Fixpoint characters (s : jsstring) : list jsstring :=
  match s with
  | [] => []
  | c :: r =>
      match r with
      | [] => [[c]]
      | d :: r' =>
          if is_high_surrogate c && is_low_surrogate d
          then [c; d] :: characters r'
          else [c] :: characters r
      end
  end.

(** The length of a string in characters. *)
Definition char_length (s : jsstring) : nat := length (characters s).

Fixpoint trimStart (s : jsstring) : jsstring :=
  match s with
  | [] => []
  | c :: r => if is_white_space c then trimStart r else s
  end.

Definition trimEnd (s : jsstring) : jsstring := rev (trimStart (rev s)).

(** [s.trim()] *)
Definition trim (s : jsstring) : jsstring := trimEnd (trimStart s).

(** [a.join] with the empty separator, on an array of strings. *)
Definition join_empty (a : list jsstring) : jsstring := concat a.

(** The values a field of a parsed body takes: absent, [null], a string,
    or any other JSON value.  The handlers pass a value on without looking
    inside it, so a number, a boolean, an array or an object is given by
    what they and the driver make of it: whether it is truthy (a number
    other than 0, [true], any array or object), its ToString, and the text
    the driver sends for it, which is never empty (the number's or the
    boolean's own text, the array literal or the JSON text in braces). *)
Inductive value :=
| Undefined
| Null
| Str (s : jsstring)
| Other (truthy_ : bool) (shown : jsstring)
        (sent_first : code_unit) (sent_rest : jsstring).

(** ToBoolean: [!v] is [negb (truthy v)]. *)
Definition truthy (v : value) : bool :=
  match v with
  | Undefined | Null => false
  | Str [] => false
  | Str (_ :: _) => true
  | Other t _ _ _ => t
  end.

(** ToString, as a template literal applies it to [${v}]. *)
Definition to_string (v : value) : jsstring :=
  match v with
  | Undefined => lit "undefined"
  | Null => lit "null"
  | Str s => s
  | Other _ shown _ _ => shown
  end.

(** An [Error] object, by its [message]. *)
Record error := Error { message : jsstring }.

(** [s || fallback] on strings: the empty string is falsy. *)
Definition or_else (s fallback : jsstring) : jsstring :=
  match s with
  | [] => fallback
  | _ :: _ => s
  end.

End Js.

Import Js.

(* ================================================================== *)
(** ** The [products] table and the statements the handlers run

    [CREATE TABLE IF NOT EXISTS products (id SERIAL PRIMARY KEY,
     name VARCHAR(100) NOT NULL, attributes TEXT, description TEXT,
     created_at TIMESTAMP DEFAULT CURRENT_TIMESTAMP)]. *)

Module Store.

(** A row.  A nullable column is an [option]; [name] is [NOT NULL]. *)
Record Product := mkProduct {
  id : Z;
  name : jsstring;
  attributes : option jsstring;
  description : option jsstring;
  created_at : Z
}.

(** The table in insertion order, and the sequence behind [SERIAL]:
    [next_id] is the value the next [nextval] returns. *)
Record Database := mkDatabase {
  rows : list Product;
  next_id : Z
}.

(** The table [initializeDatabase] creates. *)
Definition empty : Database := mkDatabase [] 1.

(** [SERIAL] is a 32-bit integer column; its sequence stops at this value. *)
Definition INT4_MAX : Z := 2147483647.

(** The bound of [VARCHAR(100)], in characters. *)
Definition NAME_MAX : nat := 100.

(** The five statements of the server file, with their positional
    parameters as the driver sends them: text or SQL [NULL]; the id of a
    [WHERE id = $n] is the path parameter, still a string. *)
Inductive Statement :=
| InsertProduct (name_ attributes_ : option jsstring)
    (* INSERT INTO products (name, attributes) VALUES ($1, $2) RETURNING * *)
| SelectAll
    (* SELECT * FROM products ORDER BY id DESC *)
| SelectById (id_ : jsstring)
    (* SELECT * FROM products WHERE id = $1 *)
| UpdateDescription (description_ : option jsstring) (id_ : jsstring)
    (* UPDATE products SET description = $1 WHERE id = $2 RETURNING * *)
| DeleteById (id_ : jsstring).
    (* DELETE FROM products WHERE id = $1 RETURNING * *)

Definition is_space (c : jsstring) : bool :=
  match c with
  | [u] => (u =? 32)%N
  | _ => false
  end.

(** Storing text into a [VARCHAR(n)] column, whose bound is in characters:
    a longer string is an error, unless all the characters in excess are
    spaces, which are cut. *)
Definition varchar (n : nat) (s : jsstring) : option jsstring :=
  let cs := characters s in
  if (length cs <=? n)%nat then Some s
  else if forallb is_space (skipn n cs) then Some (concat (firstn n cs))
  else None.

Definition value_too_long : error :=
  Error (lit "value too long for type character varying(100)").

Definition not_null_violation : error :=
  Error (lit "null value in column " ++ [34%N] ++ lit "name" ++ [34%N]
         ++ lit " of relation " ++ [34%N] ++ lit "products" ++ [34%N]
         ++ lit " violates not-null constraint").

Definition sequence_exhausted : error :=
  Error (lit "nextval: reached maximum value of sequence " ++ [34%N]
         ++ lit "products_id_seq" ++ [34%N] ++ lit " (2147483647)").

(** [ORDER BY id DESC], as a stable insertion sort on the key. *)
Fixpoint insert_desc (p : Product) (l : list Product) : list Product :=
  match l with
  | [] => [p]
  | q :: r => if id q <? id p then p :: l else q :: insert_desc p r
  end.

Definition order_by_id_desc (l : list Product) : list Product :=
  fold_right insert_desc [] l.

Definition has_id (i : Z) (p : Product) : bool := id p =? i.

Definition set_description (d : option jsstring) (p : Product) : Product :=
  mkProduct (id p) (name p) (attributes p) d (created_at p).

(** What [UPDATE products SET description = d WHERE id = i] does to one
    row. *)
Definition updated (d : option jsstring) (i : Z) (p : Product) : Product :=
  if has_id i p then set_description d p else p.

Section Exec.

(** How the database reads the text of a parameter compared with the
    integer column [id]: an integer, or the error it raises. *)
Variable int4_in : jsstring -> error + Z.

(** [CURRENT_TIMESTAMP] of the statement. *)
Variable now : Z.

(** One statement: the rows it returns or the error it raises, and the
    table after it.  The text of the name is fitted to its column before
    an id is drawn: an [INSERT] refused for a name that is too long leaves
    the sequence as it was.  The [NOT NULL] constraint is checked on the
    row, once its id is drawn, and a sequence is not rolled back. *)
Definition exec (q : Statement) (d : Database)
  : (error + list Product) * Database :=
  match q with
  | InsertProduct name_ attributes_ =>
      match name_ with
      | None =>
          if INT4_MAX <? next_id d then (inl sequence_exhausted, d)
          else (inl not_null_violation, mkDatabase (rows d) (next_id d + 1))
      | Some n =>
          match varchar NAME_MAX n with
          | None => (inl value_too_long, d)
          | Some n' =>
              if INT4_MAX <? next_id d then (inl sequence_exhausted, d)
              else
                let p := mkProduct (next_id d) n' attributes_ None now in
                (inr [p], mkDatabase (rows d ++ [p]) (next_id d + 1))
          end
      end
  | SelectAll => (inr (order_by_id_desc (rows d)), d)
  | SelectById id_ =>
      match int4_in id_ with
      | inl e => (inl e, d)
      | inr i => (inr (filter (has_id i) (rows d)), d)
      end
  | UpdateDescription description_ id_ =>
      match int4_in id_ with
      | inl e => (inl e, d)
      | inr i =>
          let rows' := map (updated description_ i) (rows d) in
          (inr (filter (has_id i) rows'), mkDatabase rows' (next_id d))
      end
  | DeleteById id_ =>
      match int4_in id_ with
      | inl e => (inl e, d)
      | inr i =>
          (inr (filter (has_id i) (rows d)),
           mkDatabase (filter (fun p => negb (has_id i p)) (rows d)) (next_id d))
      end
  end.

End Exec.

(** The row of a given id, if any (the first one the table holds). *)
Definition lookup (i : Z) (d : Database) : option Product :=
  find (has_id i) (rows d).

(** What [SERIAL PRIMARY KEY] maintains: the ids of the table are distinct
    and all of them were drawn from the sequence already. *)
Definition well_formed (d : Database) : Prop :=
  NoDup (map id (rows d)) /\ Forall (fun p => id p < next_id d) (rows d).

End Store.

Import Store.

(* ================================================================== *)
(** ** The remote text-generation service *)

Module Replicate.

(** What [replicate.run] resolves to: an array of text fragments, or
    nothing. *)
Inductive Output :=
| OutUndefined
| OutNull
| OutArray (fragments : list jsstring).

Record Input := mkInput {
  prompt : jsstring;
  max_new_tokens : Z;
  min_new_tokens : Z;
  temperature : Q
}.

Record Call := mkCall {
  model : jsstring;
  input : Input
}.

Inductive Outcome :=
| Rejects (e : error)
| Resolves (o : Output).

End Replicate.

(* ================================================================== *)
(** ** The world a request runs in *)

(** The oracles of the environment.  [store_fault n] is the unexpected
    failure, if any, that the [n]-th query of the server meets (the
    statement is then not run); [clock n] is the time of that query;
    [replicate_run n c] is the outcome of the [n]-th remote call. *)
Record Env := mkEnv {
  int4_in : jsstring -> error + Z;
  store_fault : nat -> option error;
  clock : nat -> Z;
  replicate_run : nat -> Replicate.Call -> Replicate.Outcome
}.

Inductive LogEntry :=
| ConsoleLog (text : jsstring)
| ConsoleError (args : list jsstring).

(** The table, the number of queries issued so far, the remote calls made
    so far (latest first) and the server's console (latest first). *)
Record World := mkWorld {
  db : Database;
  queries : nat;
  remote_calls : list Replicate.Call;
  console : list LogEntry
}.

Definition initial_world : World := mkWorld Store.empty 0 [] [].

(** *** The monad of an [async] function: state and exceptions *)

Inductive completion (A : Type) :=
| Normal (a : A)
| Throw (e : error).

Arguments Normal {A} a.
Arguments Throw {A} e.

Definition M (A : Type) : Type := World -> completion A * World.

Definition ret {A} (a : A) : M A := fun w => (Normal a, w).

Definition throw {A} (e : error) : M A := fun w => (Throw e, w).

Definition bind {A B} (m : M A) (k : A -> M B) : M B :=
  fun w =>
    match m w with
    | (Normal a, w') => k a w'
    | (Throw e, w') => (Throw e, w')
    end.

(** [try { body } catch (err) { handler }] *)
Definition try_catch {A} (body : M A) (handler : error -> M A) : M A :=
  fun w =>
    match body w with
    | (Normal a, w') => (Normal a, w')
    | (Throw e, w') => handler e w'
    end.

Declare Scope js_scope.
Delimit Scope js_scope with js.
Notation "x <- m ;; k" := (bind m (fun x => k))
  (at level 61, m at next level, right associativity) : js_scope.
Notation "m ;; k" := (bind m (fun _ => k))
  (at level 61, right associativity) : js_scope.
Open Scope js_scope.

Definition console_log (text : jsstring) : M unit :=
  fun w => (Normal tt,
            mkWorld (db w) (queries w) (remote_calls w) (ConsoleLog text :: console w)).

Definition console_error (args : list jsstring) : M unit :=
  fun w => (Normal tt,
            mkWorld (db w) (queries w) (remote_calls w) (ConsoleError args :: console w)).

(** [db.query(text, params)]: one statement on the pool. *)
Definition db_query (env : Env) (q : Statement) : M (list Product) :=
  fun w =>
    let n := queries w in
    match store_fault env n with
    | Some e => (Throw e, mkWorld (db w) (S n) (remote_calls w) (console w))
    | None =>
        let (r, d) := exec (int4_in env) (clock env n) q (db w) in
        let w' := mkWorld d (S n) (remote_calls w) (console w) in
        match r with
        | inl e => (Throw e, w')
        | inr rs => (Normal rs, w')
        end
    end.

(** [replicate.run(model, {input})]: one remote call, recorded. *)
Definition run (env : Env) (c : Replicate.Call) : M Replicate.Output :=
  fun w =>
    let w' := mkWorld (db w) (queries w) (c :: remote_calls w) (console w) in
    match replicate_run env (length (remote_calls w)) c with
    | Replicate.Rejects e => (Throw e, w')
    | Replicate.Resolves o => (Normal o, w')
    end.

(* ================================================================== *)
(** ** The AI service module *)

Module AiService.

Definition modelVersion : jsstring :=
  lit "ibm-granite/granite-3.3-8b-instruct:618ecbe80773609e96ea19d8c96e708f6f2b368bb89be8fad509983194466bf8".

(** A template literal: its fixed text and its substitutions. *)
Inductive part :=
| Quasi (text : jsstring)
| Subst (v : value).

Definition template_literal (ps : list part) : jsstring :=
  concat (map (fun p => match p with Quasi t => t | Subst v => to_string v end) ps).

Definition nl : jsstring := [10%N].

(** The text of the prompt before the product name, between the name and
    the attributes, and after the attributes. *)
Definition prompt_head : jsstring :=
  nl ++ lit "        Please create an attractive and persuasive product description for an e-commerce website."
  ++ nl ++ lit "        Use a professional and engaging tone."
  ++ nl ++ lit "        The description should be in English."
  ++ nl ++ lit "        Keep it to 2-3 short paragraphs."
  ++ nl
  ++ nl ++ lit "        Product Information:"
  ++ nl ++ lit "        - Product Name: ".

Definition prompt_middle : jsstring :=
  nl ++ lit "        - Characteristics/Attributes: ".

Definition prompt_tail : jsstring := nl ++ lit "    ".

(** The message of the [TypeError] that [output.join] raises when [output]
    is [undefined] or [null] (the wording of V8). *)
Definition join_type_error (what : string) : error :=
  Error (lit "Cannot read properties of " ++ lit what ++ lit " (reading 'join')").

(** [output.join] with the empty separator, on what the call resolved to. *)
Definition join (output : Replicate.Output) : M jsstring :=
  match output with
  | Replicate.OutUndefined => throw (join_type_error "undefined")
  | Replicate.OutNull => throw (join_type_error "null")
  | Replicate.OutArray fragments => ret (join_empty fragments)
  end.

Definition no_text : error := Error (lit "Replicate API did not return any text.").

Definition fallback_message : jsstring :=
  lit "Failed to generate description from AI Replicate.".

Definition generateDescription (env : Env) (productName attributes : value)
  : M jsstring :=
  let prompt :=
    template_literal
      [Quasi prompt_head; Subst productName;
       Quasi prompt_middle; Subst attributes; Quasi prompt_tail] in
  console_log (lit "[AI Service] Sending prompt to Replicate (IBM Granite)...") ;;
  try_catch
    (output <- run env (Replicate.mkCall modelVersion
                          (Replicate.mkInput prompt 300 50 (8 # 10))) ;;
     description <- join output ;;
     match description with
     | [] => throw no_text
     | _ :: _ =>
         console_log (lit "[AI Service] Successfully received description from Replicate.") ;;
         ret (trim description)
     end)
    (fun error =>
       console_error [lit "[AI Service] Error calling Replicate:"; message error] ;;
       throw (Error (or_else (message error) fallback_message))).

End AiService.

(* ================================================================== *)
(** ** The route handlers *)

Module Server.

(** What a handler reads of a request: [req.params.id] and the fields of
    [req.body] (the body parser leaves an object there, without fields
    when the request has no body). *)
Record Request := mkRequest {
  params_id : jsstring;
  body_name : value;
  body_attributes : value;
  body_description : value
}.

Inductive Payload :=
| JsonRow (row : option Product)      (* res.json(result.rows[0]) *)
| JsonRows (all : list Product)       (* res.json(result.rows) *)
| JsonError (error_ : jsstring)       (* res.json({ error }) *)
| JsonMessage (message_ : jsstring)   (* res.json({ message }) *)
| Text (text : jsstring).             (* res.send(text) *)

Record Response := mkResponse {
  status : Z;
  payload : Payload
}.

(** The driver sends [undefined] and [null] as SQL [NULL], a string as it
    is, and any other value as text. *)
Definition prepareValue (v : value) : option jsstring :=
  match v with
  | Undefined | Null => None
  | Str s => Some s
  | Other _ _ c r => Some (c :: r)
  end.

(** A column read back into JavaScript. *)
Definition column (c : option jsstring) : value :=
  match c with
  | None => Null
  | Some s => Str s
  end.

Definition server_error (err : error) : M Response :=
  console_error [message err] ;;
  ret (mkResponse 500 (Text (lit "Server Error"))).

Definition not_found : Response :=
  mkResponse 404 (JsonError (lit "Product not found")).

Section Handlers.

Variable env : Env.

(** [POST /api/products] *)
Definition create (req : Request) : M Response :=
  try_catch
    (let name_ := body_name req in
     let attributes_ := body_attributes req in
     if negb (truthy name_) || negb (truthy attributes_) then
       ret (mkResponse 400 (JsonError (lit "Name and attributes are required")))
     else
       newProduct <- db_query env (InsertProduct (prepareValue name_)
                                                 (prepareValue attributes_)) ;;
       ret (mkResponse 201 (JsonRow (hd_error newProduct))))
    server_error.

(** [GET /api/products] *)
Definition list_all (req : Request) : M Response :=
  try_catch
    (allProducts <- db_query env SelectAll ;;
     ret (mkResponse 200 (JsonRows allProducts)))
    server_error.

(** [GET /api/products/:id] *)
Definition get (req : Request) : M Response :=
  try_catch
    (product <- db_query env (SelectById (params_id req)) ;;
     match product with
     | [] => ret not_found
     | row :: _ => ret (mkResponse 200 (JsonRow (Some row)))
     end)
    server_error.

(** [PUT /api/products/:id] *)
Definition update (req : Request) : M Response :=
  try_catch
    (updateProduct <- db_query env
        (UpdateDescription (prepareValue (body_description req)) (params_id req)) ;;
     match updateProduct with
     | [] => ret not_found
     | row :: _ => ret (mkResponse 200 (JsonRow (Some row)))
     end)
    server_error.

(** [DELETE /api/products/:id] *)
Definition delete (req : Request) : M Response :=
  try_catch
    (deleteProduct <- db_query env (DeleteById (params_id req)) ;;
     match deleteProduct with
     | [] => ret not_found
     | _ :: _ =>
         ret (mkResponse 200 (JsonMessage (lit "Product successfully deleted")))
     end)
    server_error.

(** [POST /api/products/:id/generate-description] *)
Definition generate_description (req : Request) : M Response :=
  try_catch
    (productResult <- db_query env (SelectById (params_id req)) ;;
     match productResult with
     | [] => ret not_found
     | product :: _ =>
         console_log (lit "[API] Calling AI Service for product: " ++ name product) ;;
         description_ <- AiService.generateDescription env
                           (Str (name product)) (column (attributes product)) ;;
         updateProduct <- db_query env
             (UpdateDescription (Some description_) (params_id req)) ;;
         ret (mkResponse 200 (JsonRow (hd_error updateProduct)))
     end)
    (fun err =>
       console_error [lit "[API] Error generating description: " ++ message err] ;;
       ret (mkResponse 500
              (JsonError (or_else (message err)
                            (lit "Server Error: Failed to generate description"))))).

(** The routes of the application. *)
Inductive Route :=
| PostProducts
| GetProducts
| GetProduct
| PutProduct
| DeleteProduct
| PostGenerateDescription.

Definition handle (r : Route) : Request -> M Response :=
  match r with
  | PostProducts => create
  | GetProducts => list_all
  | GetProduct => get
  | PutProduct => update
  | DeleteProduct => delete
  | PostGenerateDescription => generate_description
  end.

End Handlers.

End Server.

Import Server.

(* ================================================================== *)
(** ** Vocabulary of the statements *)

Definition all_white_space (s : jsstring) : Prop :=
  forallb is_white_space s = true.

(** The first code unit, if any, is not white space. *)
Definition starts_clean (s : jsstring) : Prop :=
  match s with
  | [] => True
  | c :: _ => is_white_space c = false
  end.

(** The last code unit, if any, is not white space. *)
Definition ends_clean (s : jsstring) : Prop := starts_clean (rev s).

(** [p] is listed before [q] when the listing is by id, descending. *)
Definition by_id_desc (p q : Product) : Prop := id q <= id p.

(** The call [generateDescription] makes for a name and attributes. *)
Definition call_for (productName attributes : value) : Replicate.Call :=
  Replicate.mkCall AiService.modelVersion
    (Replicate.mkInput
       (AiService.prompt_head ++ to_string productName
        ++ AiService.prompt_middle ++ to_string attributes
        ++ AiService.prompt_tail)
       300 50 (8 # 10)).

(** The message the generation client fails with for an outcome of the
    remote call that is a failure or carries no text: the remote error's
    message, or a fixed message when there is none.  [None] for an outcome
    that carries text. *)
Definition failure_message (o : Replicate.Outcome) : option jsstring :=
  match o with
  | Replicate.Rejects e =>
      Some (match message e with
            | [] => AiService.fallback_message
            | _ :: _ => message e
            end)
  | Replicate.Resolves Replicate.OutUndefined =>
      Some (message (AiService.join_type_error "undefined"))
  | Replicate.Resolves Replicate.OutNull =>
      Some (message (AiService.join_type_error "null"))
  | Replicate.Resolves (Replicate.OutArray fragments) =>
      match concat fragments with
      | [] => Some (message AiService.no_text)
      | _ :: _ => None
      end
  end.

(** The world in which the generate-description handler calls the
    generation client for [product], when it was entered in [w]. *)
Definition at_generation (product : Product) (w : World) : World :=
  mkWorld (db w) (S (queries w)) (remote_calls w)
    (ConsoleLog (lit "[API] Calling AI Service for product: " ++ name product)
     :: console w).

(** The statement a CRUD handler runs for a request. *)
Definition statement_of (r : Route) (req : Request) : Statement :=
  match r with
  | PostProducts =>
      InsertProduct (prepareValue (body_name req)) (prepareValue (body_attributes req))
  | GetProducts => SelectAll
  | GetProduct | PostGenerateDescription => SelectById (params_id req)
  | PutProduct =>
      UpdateDescription (prepareValue (body_description req)) (params_id req)
  | DeleteProduct => DeleteById (params_id req)
  end.

(** The request passes the check of the handler, if it has one. *)
Definition validated (r : Route) (req : Request) : Prop :=
  match r with
  | PostProducts =>
      truthy (body_name req) = true /\ truthy (body_attributes req) = true
  | _ => True
  end.

(** The generic answer to a failure. *)
Definition generic_500 : Response := mkResponse 500 (Text (lit "Server Error")).

(** A store failure met by the generate-description handler: at its
    [SELECT], or at its [UPDATE] after a successful generation. *)
Definition generate_store_failure (env : Env) (req : Request) (w : World)
    (e : error) (w' : World) : Prop :=
  db_query env (SelectById (params_id req)) w = (Throw e, w')
  \/ exists product rest w1 text w2,
       db_query env (SelectById (params_id req)) w = (Normal (product :: rest), w1)
       /\ AiService.generateDescription env (Str (name product))
            (column (attributes product))
            (snd (console_log
                    (lit "[API] Calling AI Service for product: " ++ name product) w1))
          = (Normal text, w2)
       /\ db_query env (UpdateDescription (Some text) (params_id req)) w2
          = (Throw e, w').

(** The world after one more line on the console. *)
Definition logged (l : LogEntry) (w : World) : World :=
  mkWorld (db w) (queries w) (remote_calls w) (l :: console w).

(** A computation that keeps the table well formed. *)
Definition keeps_well_formed {A} (m : M A) : Prop :=
  forall w, well_formed (db w) -> well_formed (db (snd (m w))).

(** A computation that does not write to the table. *)
Definition read_only {A} (m : M A) : Prop :=
  forall w, db (snd (m w)) = db w.

(** Requests served one after the other. *)
Fixpoint serve (env : Env) (rs : list (Route * Request)) (w : World)
  : list (completion Response) * World :=
  match rs with
  | [] => ([], w)
  | (r, req) :: rest =>
      let (c, w1) := handle env r req w in
      let (cs, w2) := serve env rest w1 in
      (c :: cs, w2)
  end.

(** The worlds the server reaches from its start. *)
Inductive reachable (env : Env) : World -> Prop :=
| reachable_start : reachable env initial_world
| reachable_step r req w :
    reachable env w -> reachable env (snd (handle env r req w)).

(** A name and attributes the create operation and the table accept. *)
Definition acceptable (n a : jsstring) : Prop :=
  n <> [] /\ a <> [] /\ (length n <= NAME_MAX)%nat.

(** The world after a query that left the table as [d]. *)
Definition after_query (d : Database) (w : World) : World :=
  mkWorld d (S (queries w)) (remote_calls w) (console w).

Definition create_request (n a : jsstring) : Request :=
  mkRequest [] (Str n) (Str a) Undefined.

Definition id_request (p : jsstring) : Request :=
  mkRequest p Undefined Undefined Undefined.

Definition description_request (p : jsstring) (v : value) : Request :=
  mkRequest p Undefined Undefined v.

(* ================================================================== *)
(** ** A concrete environment, for the examples *)

Module Scenario.

Fixpoint digits (acc : Z) (s : jsstring) : option Z :=
  match s with
  | [] => Some acc
  | c :: r =>
      if ((48 <=? c) && (c <=? 57))%N
      then digits (10 * acc + Z.of_N (c - 48)) r
      else None
  end.

Definition invalid_integer (s : jsstring) : error :=
  Error (lit "invalid input syntax for type integer: " ++ [34%N] ++ s ++ [34%N]).

Definition out_of_range (s : jsstring) : error :=
  Error (lit "value " ++ [34%N] ++ s ++ [34%N]
         ++ lit " is out of range for type integer").

(** Decimal literals without sign. *)
Definition int4_decimal (s : jsstring) : error + Z :=
  match s with
  | [] => inl (invalid_integer s)
  | _ :: _ =>
      match digits 0 s with
      | None => inl (invalid_integer s)
      | Some z => if z <=? INT4_MAX then inr z else inl (out_of_range s)
      end
  end.

Definition epoch : Z := 1700000000.

(** A database that never fails unexpectedly and a remote service that
    always gives the same outcome. *)
Definition calm (answer : Replicate.Outcome) : Env :=
  mkEnv int4_decimal (fun _ => None) (fun n => epoch + Z.of_nat n)
        (fun _ _ => answer).

(** A database whose every query fails with [e]. *)
Definition broken_store (e : error) : Env :=
  mkEnv int4_decimal (fun _ => Some e) (fun n => epoch + Z.of_nat n)
        (fun _ _ => Replicate.Resolves (Replicate.OutArray [])).

Definition tee : Product :=
  mkProduct 1 (lit "Stussy 8-Ball Tee") (Some (lit "Cotton, Black, Size L"))
            None epoch.

Definition described_tee : Product :=
  set_description (Some (lit "An older description.")) tee.

Definition world_of (rows_ : list Product) (next : Z) : World :=
  mkWorld (mkDatabase rows_ next) 0 [] [].

Definition great_shirt : Replicate.Outcome :=
  Replicate.Resolves (Replicate.OutArray [lit "Great "; lit "shirt."]).

Definition nothing : Replicate.Outcome :=
  Replicate.Resolves (Replicate.OutArray []).

Definition overloaded : Replicate.Outcome :=
  Replicate.Rejects (Error (lit "Request failed with status 429 Too Many Requests")).

Definition connection_lost : error :=
  Error (lit "connect ECONNREFUSED 10.0.0.5:5432").

Definition long_name : jsstring := repeat 97%N 101.

End Scenario.

(* ================================================================== *)
(** ** Vocabulary of the further properties *)

(** The statuses a route answers with. *)
Definition statuses (r : Route) : list Z :=
  match r with
  | PostProducts => [201; 400; 500]
  | GetProducts => [200; 500]
  | GetProduct | PutProduct | DeleteProduct | PostGenerateDescription =>
      [200; 404; 500]
  end.

(** A record as the create handler lets it in: a name that is not empty
    and of at most 100 characters, and attributes that are text and not
    empty. *)
Definition record_valid (p : Product) : Prop :=
  name p <> [] /\ (char_length (name p) <= NAME_MAX)%nat
  /\ exists a, attributes p = Some a /\ a <> [].

(** A computation that maintains a property of the world. *)
Definition maintains (P : World -> Prop) {A} (m : M A) : Prop :=
  forall w, P w -> P (snd (m w)).

(** A property of the world that looks at the table only. *)
Definition of_table (P : Database -> Prop) (w : World) : Prop := P (db w).

(** The sequence has reached [k]. *)
Definition sequence_from (k : Z) (d : Database) : Prop := k <= next_id d.

Definition records_valid (d : Database) : Prop := Forall record_valid (rows d).

(** Two records that differ in their description at most. *)
Definition same_but_description (p p' : Product) : Prop :=
  id p' = id p /\ name p' = name p /\ attributes p' = attributes p
  /\ created_at p' = created_at p.

(** A table that descends from the rows [before] and the sequence value
    [next]: each of its records is one of [before], up to its description,
    or was created since. *)
Definition descends_from (before : list Product) (next : Z) (d : Database) : Prop :=
  next <= next_id d
  /\ forall p', In p' (rows d) ->
       (exists p, In p before /\ same_but_description p p') \/ next <= id p'.

(* ================================================================== *)
(** ** The pages that call the API

    The event handlers of the two pages, as functions of the state the
    handler was created with and of what each [fetch] settles to.  A
    handler runs to its end; the state it returns is the one its calls to
    the state setters leave, in order. *)

Module Browser.

(** What a [fetch] settles to: a rejection when the request did not
    complete, a response otherwise, whatever its status. *)
Inductive Fetched :=
| Rejected (e : error)
| Responded (r : Response).

(** [response.ok]: a status from 200 to 299. *)
Definition ok (r : Response) : bool := (200 <=? status r) && (status r <=? 299).

(** A value read from a JSON body of this API. *)
Inductive Json :=
| JsRow (p : Product)          (* the object of a row *)
| JsRows (l : list Product)    (* an array of rows *)
| JsError (m : jsstring)       (* { error: m } *)
| JsMessage (m : jsstring).    (* { message: m } *)

(** [response.json()]: the body read as JSON, or nothing when the body is
    not JSON (the text the server sends, and an empty body, are not). *)
Definition json (r : Response) : option Json :=
  match payload r with
  | JsonRow (Some p) => Some (JsRow p)
  | JsonRow None => None
  | JsonRows l => Some (JsRows l)
  | JsonError m => Some (JsError m)
  | JsonMessage m => Some (JsMessage m)
  | Text _ => None
  end.

(** [data.error] *)
Definition error_of (j : Json) : jsstring :=
  match j with
  | JsError m => m
  | _ => []
  end.

End Browser.

Import Browser.

(** *** The product list page *)

Module Home.

Record State := mkState {
  products : Json;
  isLoading : bool;
  error_ : option jsstring;
  formName : jsstring;
  formAttributes : jsstring
}.

(** The state of the first render. *)
Definition initial : State := mkState (JsRows []) true None [] [].

Definition setProducts (v : Json) (s : State) : State :=
  mkState v (isLoading s) (error_ s) (formName s) (formAttributes s).

Definition setIsLoading (v : bool) (s : State) : State :=
  mkState (products s) v (error_ s) (formName s) (formAttributes s).

Definition setError (v : option jsstring) (s : State) : State :=
  mkState (products s) (isLoading s) v (formName s) (formAttributes s).

Definition setFormName (v : jsstring) (s : State) : State :=
  mkState (products s) (isLoading s) (error_ s) v (formAttributes s).

Definition setFormAttributes (v : jsstring) (s : State) : State :=
  mkState (products s) (isLoading s) (error_ s) (formName s) v.

Section Page.

(** The error [response.json()] rejects with on a body that is not JSON. *)
Variable syntax_error : Payload -> error.

(** [fetchProducts], given what its [GET /products] settles to. *)
Definition fetchProducts (got : Fetched) (s : State) : State :=
  let s := setIsLoading true s in
  let s :=
    match got with
    | Rejected err => setError (Some (message err)) s
    | Responded response =>
        if negb (ok response)
        then setError (Some (lit "Failed to fetch products")) s
        else
          match json response with
          | None => setError (Some (message (syntax_error (payload response)))) s
          | Some data => setError None (setProducts data s)
          end
    end in
  setIsLoading false s.

(** The request [handleAddProduct] sends. *)
Definition add_request (s : State) : Request :=
  mkRequest [] (Str (formName s)) (Str (formAttributes s)) Undefined.

(** [handleAddProduct], given what its [POST /products] settles to and
    what the [GET /products] of the refresh settles to: the state it
    leaves and its alerts. *)
Definition handleAddProduct (posted got : Fetched) (s : State)
  : State * list jsstring :=
  match posted with
  | Rejected err => (s, [message err])
  | Responded response =>
      if negb (ok response)
      then (s, [lit "Failed to add product"])
      else (fetchProducts got (setFormAttributes [] (setFormName [] s)), [])
  end.

End Page.

End Home.

(** *** The product detail page *)

Module Detail.

(** The object in the [product] state: what was read from the server and
    the two fields the page adds. *)
Record Shown := mkShown {
  data : option Json;
  isGenerating : option bool;
  genError : option jsstring
}.

Record State := mkState {
  product : option Shown;
  isLoading : bool;
  error_ : option jsstring
}.

Definition initial : State := mkState None true None.

Definition setProduct (v : option Shown) (s : State) : State :=
  mkState v (isLoading s) (error_ s).

Definition setIsLoading (v : bool) (s : State) : State :=
  mkState (product s) v (error_ s).

Definition setError (v : option jsstring) (s : State) : State :=
  mkState (product s) (isLoading s) v.

(** What was read from the server, as the [product] state. *)
Definition fresh (j : Json) : Shown := mkShown (Some j) None None.

(** [{ ...product, isGenerating: true }]; spreading [null] gives no field. *)
Definition generating (p : option Shown) : Shown :=
  match p with
  | None => mkShown None (Some true) None
  | Some o => mkShown (data o) (Some true) (genError o)
  end.

(** [{ ...product, isGenerating: false, genError: m }] *)
Definition failed (p : option Shown) (m : jsstring) : Shown :=
  match p with
  | None => mkShown None (Some false) (Some m)
  | Some o => mkShown (data o) (Some false) (Some m)
  end.

(** What the buttons of the page do besides changing its state. *)
Record Effects := mkEffects {
  requested : bool;
  alerts : list jsstring;
  pushed : option jsstring
}.

Section Page.

Variable syntax_error : Payload -> error.

(** [router.query.id]: absent until the router is ready. *)
Variable id : option jsstring.

Definition id_truthy : bool :=
  match id with
  | Some (_ :: _) => true
  | _ => false
  end.

(** The path parameter of the requests of the page. *)
Definition id_text : jsstring :=
  match id with
  | Some p => p
  | None => lit "undefined"
  end.

(** [fetchProduct], given what its [GET /products/:id] settles to. *)
Definition fetchProduct (got : Fetched) (s : State) : State :=
  if negb id_truthy then s
  else
    let s := setIsLoading true s in
    let s :=
      match got with
      | Rejected err => setError (Some (message err)) s
      | Responded response =>
          if negb (ok response)
          then setError (Some (lit "Product not found")) s
          else
            match json response with
            | None => setError (Some (message (syntax_error (payload response)))) s
            | Some j => setError None (setProduct (Some (fresh j)) s)
            end
      end in
    setIsLoading false s.

(** The state while [handleGenerateAI] waits for the server. *)
Definition waiting (s : State) : State :=
  setProduct (Some (generating (product s))) s.

(** [handleGenerateAI], given what its
    [POST /products/:id/generate-description] settles to: the state it
    leaves and its alerts.  The [product] it spreads is the one of the
    render the handler belongs to. *)
Definition handleGenerateAI (got : Fetched) (s : State) : State * list jsstring :=
  let caught (err : error) :=
    (setProduct (Some (failed (product s) (message err))) (waiting s),
     [lit "AI Error: " ++ message err]) in
  match got with
  | Rejected err => caught err
  | Responded response =>
      if negb (ok response)
      then
        match json response with
        | None => caught (syntax_error (payload response))
        | Some errData =>
            caught (Error (or_else (error_of errData)
                             (lit "Failed to generate description")))
        end
      else
        match json response with
        | None => caught (syntax_error (payload response))
        | Some updatedProduct =>
            (setProduct (Some (fresh updatedProduct)) (waiting s), [])
        end
  end.

(** [handleDelete], given the user's answer to the confirmation and what
    its [DELETE /products/:id] settles to. *)
Definition handleDelete (confirmed : bool) (got : Fetched) : Effects :=
  if negb confirmed then mkEffects false [] None
  else
    match got with
    | Rejected err => mkEffects true [lit "Failed to delete: " ++ message err] None
    | Responded _ =>
        mkEffects true [lit "Product deleted! Redirecting to home..."]
                  (Some (lit "/"))
    end.

End Page.

(** What the description area of the page displays. *)
Inductive View :=
| Contacting                       (* "Contacting AI (Replicate), please wait..." *)
| ShowsError (m : jsstring)        (* "Error: " and the generation error *)
| ShowsDescription (d : jsstring)  (* the description *)
| NotGenerated.                    (* "AI description not generated yet..." *)

(** [product.description], for the test of the display: text that is not
    empty, when the object has one. *)
Definition description_of (o : Shown) : jsstring :=
  match data o with
  | Some (JsRow p) =>
      match description p with
      | Some d => d
      | None => []
      end
  | _ => []
  end.

(** The nested conditional of the description area. *)
Definition view (o : Shown) : View :=
  match isGenerating o with
  | Some true => Contacting
  | _ =>
      match genError o with
      | Some (c :: m) => ShowsError (c :: m)
      | _ =>
          match description_of o with
          | c :: d => ShowsDescription (c :: d)
          | [] => NotGenerated
          end
      end
  end.

End Detail.

(* ================================================================== *)
(** ** Text the database stores as it is sent *)

(** No surrogate without its partner. *)
Fixpoint well_formed_utf16 (s : jsstring) : bool :=
  match s with
  | [] => true
  | c :: r =>
      if is_high_surrogate c
      then match r with
           | d :: r' => is_low_surrogate d && well_formed_utf16 r'
           | [] => false
           end
      else negb (is_low_surrogate c) && well_formed_utf16 r
  end.

(** Text that reaches the table as it was sent: well-formed UTF-16 (the
    driver replaces a lone surrogate) without U+0000 (the database refuses
    it). *)
Definition plain_text (s : jsstring) : Prop :=
  well_formed_utf16 s = true /\ ~ In 0%N s.

(** A description value that is stored as it was sent: [null] or plain
    text. *)
Definition stored_as_sent (v : value) : Prop :=
  match v with
  | Null => True
  | Str d => plain_text d
  | _ => False
  end.

(* ================================================================== *)
(** ** The generate-description handler among other requests

    The handler gives the control back while it awaits the remote call,
    between its [SELECT] and its [UPDATE]: what the server does meanwhile
    for other requests is a change of the world, [meanwhile], that takes
    place once the call is sent and before its outcome is looked at.
    With nothing served meanwhile these are [run],
    [AiService.generateDescription] and [generate_description]. *)

Module Interleaved.

Section Meanwhile.

Variable env : Env.

Variable meanwhile : World -> World.

(** [await replicate.run(model, {input})] *)
Definition run (c : Replicate.Call) : M Replicate.Output :=
  fun w =>
    let w' := meanwhile
                (mkWorld (db w) (queries w) (c :: remote_calls w) (console w)) in
    match replicate_run env (length (remote_calls w)) c with
    | Replicate.Rejects e => (Throw e, w')
    | Replicate.Resolves o => (Normal o, w')
    end.

Definition generateDescription (productName attributes : value) : M jsstring :=
  let prompt :=
    AiService.template_literal
      [AiService.Quasi AiService.prompt_head; AiService.Subst productName;
       AiService.Quasi AiService.prompt_middle; AiService.Subst attributes;
       AiService.Quasi AiService.prompt_tail] in
  console_log (lit "[AI Service] Sending prompt to Replicate (IBM Granite)...") ;;
  try_catch
    (output <- run (Replicate.mkCall AiService.modelVersion
                      (Replicate.mkInput prompt 300 50 (8 # 10))) ;;
     description <- AiService.join output ;;
     match description with
     | [] => throw AiService.no_text
     | _ :: _ =>
         console_log (lit "[AI Service] Successfully received description from Replicate.") ;;
         ret (trim description)
     end)
    (fun error =>
       console_error [lit "[AI Service] Error calling Replicate:"; message error] ;;
       throw (Error (or_else (message error) AiService.fallback_message))).

(** [POST /api/products/:id/generate-description] *)
Definition generate_description (req : Request) : M Response :=
  try_catch
    (productResult <- db_query env (SelectById (params_id req)) ;;
     match productResult with
     | [] => ret (mkResponse 404 (JsonError (lit "Product not found")))
     | product :: _ =>
         console_log (lit "[API] Calling AI Service for product: " ++ name product) ;;
         description_ <- generateDescription
                           (Str (name product)) (column (attributes product)) ;;
         updateProduct <- db_query env
             (UpdateDescription (Some description_) (params_id req)) ;;
         ret (mkResponse 200 (JsonRow (hd_error updateProduct)))
     end)
    (fun err =>
       console_error [lit "[API] Error generating description: " ++ message err] ;;
       ret (mkResponse 500
              (JsonError (or_else (message err)
                            (lit "Server Error: Failed to generate description"))))).

End Meanwhile.

(** Nothing is served meanwhile. *)
Definition alone (w : World) : World := w.

(** Another request is served meanwhile. *)
Definition serving (env : Env) (r : Route) (req : Request) (w : World) : World :=
  snd (handle env r req w).

End Interleaved.

(* ================================================================== *)
(** ** Properties of [trim] *)

Module TrimFacts.

Lemma trimStart_split (s : jsstring) :
  exists l, s = l ++ trimStart s /\ all_white_space l.
Proof.
  induction s as [|c r IH]; simpl.
  - exists []. split; reflexivity.
  - destruct (is_white_space c) eqn:E.
    + destruct IH as (l & Hl & Hw). exists (c :: l). split.
      * simpl. now rewrite <- Hl.
      * unfold all_white_space. simpl. now rewrite E.
    + exists []. split; reflexivity.
Qed.

Lemma trimStart_clean (s : jsstring) : starts_clean (trimStart s).
Proof.
  induction s as [|c r IH]; simpl; [exact I|].
  destruct (is_white_space c) eqn:E; [exact IH | exact E].
Qed.

Lemma all_white_space_rev (l : jsstring) :
  all_white_space l -> all_white_space (rev l).
Proof.
  unfold all_white_space. rewrite !forallb_forall.
  intros H x Hx. apply H. now apply in_rev.
Qed.

Lemma trimEnd_split (s : jsstring) :
  exists r, s = trimEnd s ++ r /\ all_white_space r.
Proof.
  unfold trimEnd. destruct (trimStart_split (rev s)) as (l & Hl & Hw).
  exists (rev l). split.
  - rewrite <- rev_app_distr, <- Hl. now rewrite rev_involutive.
  - now apply all_white_space_rev.
Qed.

Lemma trimEnd_clean (s : jsstring) : ends_clean (trimEnd s).
Proof.
  unfold ends_clean, trimEnd. rewrite rev_involutive. apply trimStart_clean.
Qed.

Lemma prefix_starts_clean (s t r : jsstring) :
  s = t ++ r -> starts_clean s -> starts_clean t.
Proof.
  intros -> H. destruct t; [exact I | exact H].
Qed.

(** [trim] removes a run of white space at each end, and nothing else. *)
Lemma trim_spec (s : jsstring) :
  (exists l r, s = l ++ trim s ++ r /\ all_white_space l /\ all_white_space r)
  /\ starts_clean (trim s) /\ ends_clean (trim s).
Proof.
  unfold trim.
  destruct (trimStart_split s) as (l & Hl & Hwl).
  destruct (trimEnd_split (trimStart s)) as (r & Hr & Hwr).
  split; [|split].
  - exists l, r. split; [|split]; trivial. now rewrite <- Hr.
  - eapply prefix_starts_clean; [exact Hr | apply trimStart_clean].
  - apply trimEnd_clean.
Qed.

(** A string with clean ends is left as it is. *)
Lemma trimStart_id (s : jsstring) : starts_clean s -> trimStart s = s.
Proof.
  destruct s as [|c r]; simpl; [reflexivity|]. now intros ->.
Qed.

Lemma trim_id (s : jsstring) : starts_clean s -> ends_clean s -> trim s = s.
Proof.
  intros Hs He. unfold trim, trimEnd. rewrite (trimStart_id s Hs).
  rewrite (trimStart_id (rev s) He). apply rev_involutive.
Qed.

Lemma trim_idempotent (s : jsstring) : trim (trim s) = trim s.
Proof.
  destruct (trim_spec s) as (_ & Hs & He). now apply trim_id.
Qed.

End TrimFacts.

(* ================================================================== *)
(** ** Characters and code units *)

Module CharFacts.

(** Induction that follows [characters]: two code units at a time. *)
Lemma pairs_ind (P : jsstring -> Prop) :
  P [] -> (forall c, P [c]) ->
  (forall c d r, P r -> P (d :: r) -> P (c :: d :: r)) ->
  forall s, P s.
Proof.
  intros H0 H1 H2 s.
  assert (H : P s /\ forall c, P (c :: s)); [|exact (proj1 H)].
  induction s as [|d r [IHr IHc]].
  - split; [exact H0 | exact H1].
  - split; [apply IHc|]. intros c. apply H2; [exact IHr | apply IHc].
Qed.

Lemma characters_pair (c d : code_unit) (r : jsstring) :
  characters (c :: d :: r)
  = if is_high_surrogate c && is_low_surrogate d
    then [c; d] :: characters r
    else [c] :: characters (d :: r).
Proof. reflexivity. Qed.

(** A code unit that does not pair with what follows is a character. *)
Lemma characters_single (c : code_unit) (t : jsstring) :
  (forall d t', t = d :: t' -> is_high_surrogate c && is_low_surrogate d = false) ->
  characters (c :: t) = [c] :: characters t.
Proof.
  destruct t as [|d t']; [reflexivity|].
  intros H. rewrite characters_pair. now rewrite (H d t' eq_refl).
Qed.

(** The first character starts with the first code unit. *)
Lemma characters_head (d : code_unit) (r : jsstring) :
  exists x rest, characters (d :: r) = (d :: x) :: rest.
Proof.
  destruct r as [|e r]; [now exists [], []|].
  rewrite characters_pair.
  destruct (is_high_surrogate d && is_low_surrogate e); eauto.
Qed.

Lemma concat_characters (s : jsstring) : concat (characters s) = s.
Proof.
  induction s as [| c | c d r IHr IHd] using pairs_ind; try reflexivity.
  rewrite characters_pair.
  destruct (is_high_surrogate c && is_low_surrogate d); cbn [concat app].
  - now rewrite IHr.
  - now rewrite IHd.
Qed.

(** A string has at most as many characters as code units. *)
Lemma char_length_le (s : jsstring) : (char_length s <= length s)%nat.
Proof.
  unfold char_length.
  induction s as [| c | c d r IHr IHd] using pairs_ind.
  - apply Nat.le_refl.
  - apply Nat.le_refl.
  - rewrite characters_pair.
    destruct (is_high_surrogate c && is_low_surrogate d);
      change (length (c :: d :: r)) with (S (S (length r)));
      change (length (d :: r)) with (S (length r)) in IHd;
      cbn [length]; lia.
Qed.

Lemma characters_nonempty (s : jsstring) : s <> [] -> characters s <> [].
Proof.
  destruct s as [|c s]; [congruence|]. intros _.
  destruct (characters_head c s) as (x & rest & ->). discriminate.
Qed.

(** The first characters of a string, read again, are the same
    characters. *)
Lemma characters_firstn (s : jsstring) (m : nat) :
  characters (concat (firstn m (characters s))) = firstn m (characters s).
Proof.
  revert m.
  induction s as [| c | c d r IHr IHd] using pairs_ind; intros m.
  - now rewrite firstn_nil.
  - destruct m as [|m]; [reflexivity|].
    cbn [characters firstn]. now rewrite firstn_nil.
  - rewrite characters_pair.
    destruct (is_high_surrogate c && is_low_surrogate d) eqn:E;
      (destruct m as [|m]; [reflexivity|]); cbn [firstn concat app].
    + rewrite characters_pair, E. now rewrite IHr.
    + rewrite characters_single; [now rewrite IHd|].
      intros d' t' Ht.
      destruct (characters_head d r) as (x & rest & Hh). rewrite Hh in Ht.
      destruct m as [|m]; [discriminate|].
      cbn [firstn concat app] in Ht. now injection Ht as <- _.
Qed.

Lemma firstn_characters_nonempty (s : jsstring) (k : nat) :
  s <> [] -> concat (firstn (S k) (characters s)) <> [].
Proof.
  destruct s as [|c s]; [congruence|]. intros _.
  destruct (characters_head c s) as (x & rest & ->). discriminate.
Qed.

(** Text within the bound of the column is stored as it is. *)
Lemma varchar_fits (k : nat) (s : jsstring) :
  (char_length s <= k)%nat -> varchar k s = Some s.
Proof.
  unfold varchar, char_length. intros H. apply Nat.leb_le in H. now rewrite H.
Qed.

(** What is stored is not empty and within the bound. *)
Lemma varchar_stored (k : nat) (s s' : jsstring) :
  s <> [] -> varchar (S k) s = Some s' ->
  s' <> [] /\ (char_length s' <= S k)%nat.
Proof.
  unfold varchar, char_length. intros Hs.
  destruct (length (characters s) <=? S k)%nat eqn:E.
  - intros [= <-]. apply Nat.leb_le in E. now split.
  - destruct (forallb is_space (skipn (S k) (characters s))); [|discriminate].
    intros H.
    assert (Hs' : s' = concat (firstn (S k) (characters s))) by congruence.
    clear H. rewrite Hs'. split.
    + now apply firstn_characters_nonempty.
    + rewrite characters_firstn. apply firstn_le_length.
Qed.

(** A test that decides that a text has no U+0000. *)
Lemma no_nul (s : jsstring) :
  forallb (fun c => negb (c =? 0)%N) s = true -> ~ In 0%N s.
Proof.
  intros H Hin. rewrite forallb_forall in H. specialize (H _ Hin).
  discriminate H.
Qed.

End CharFacts.

(* ================================================================== *)
(** ** Facts about the table *)

Module StoreFacts.

Lemma insert_desc_perm (p : Product) (l : list Product) :
  Permutation (insert_desc p l) (p :: l).
Proof.
  induction l as [|q r IH]; simpl; [reflexivity|].
  destruct (id q <? id p); [reflexivity|].
  rewrite IH. apply perm_swap.
Qed.

Lemma order_by_id_desc_perm (l : list Product) :
  Permutation (order_by_id_desc l) l.
Proof.
  induction l as [|p r IH]; simpl; [reflexivity|].
  rewrite insert_desc_perm. now constructor.
Qed.

Lemma insert_desc_sorted (p : Product) (l : list Product) :
  StronglySorted by_id_desc l -> StronglySorted by_id_desc (insert_desc p l).
Proof.
  induction 1 as [|q r Hs IH Hq]; simpl.
  - repeat constructor.
  - destruct (id q <? id p) eqn:E.
    + apply Z.ltb_lt in E. constructor; [now constructor|].
      constructor; [unfold by_id_desc; lia|].
      eapply Forall_impl; [|exact Hq]. unfold by_id_desc. intros x Hx. lia.
    + apply Z.ltb_ge in E. constructor; [exact IH|].
      eapply Permutation_Forall; [symmetry; apply insert_desc_perm|].
      constructor; [exact E | exact Hq].
Qed.

Lemma order_by_id_desc_sorted (l : list Product) :
  StronglySorted by_id_desc (order_by_id_desc l).
Proof.
  induction l as [|p r IH]; simpl; [constructor|].
  now apply insert_desc_sorted.
Qed.

(** A row newer than the whole table is listed first. *)
Lemma order_by_id_desc_newest (l : list Product) (p : Product) :
  Forall (fun q => id q < id p) l ->
  order_by_id_desc (l ++ [p]) = p :: order_by_id_desc l.
Proof.
  induction 1 as [|q r Hq _ IH]; simpl; [reflexivity|].
  rewrite IH. simpl.
  destruct (id p <? id q) eqn:E; [apply Z.ltb_lt in E; lia | reflexivity].
Qed.

Lemma find_filter (f : Product -> bool) (l : list Product) (p : Product) :
  find f l = Some p -> exists rest, filter f l = p :: rest.
Proof.
  induction l as [|q r IH]; simpl; [discriminate|].
  destruct (f q); [|exact IH].
  intros [= ->]. now eexists.
Qed.

Lemma find_none_filter (f : Product -> bool) (l : list Product) :
  find f l = None -> filter f l = [].
Proof.
  induction l as [|q r IH]; simpl; [reflexivity|].
  destruct (f q); [discriminate | exact IH].
Qed.

Lemma has_id_updated (d : option jsstring) (i j : Z) (p : Product) :
  has_id j (updated d i p) = has_id j p.
Proof.
  unfold updated. now destruct (has_id i p).
Qed.

Lemma id_updated (d : option jsstring) (i : Z) (p : Product) :
  id (updated d i p) = id p.
Proof.
  unfold updated. now destruct (has_id i p).
Qed.

Lemma filter_updated (d : option jsstring) (i : Z) (l : list Product) :
  filter (has_id i) (map (updated d i) l)
  = map (set_description d) (filter (has_id i) l).
Proof.
  induction l as [|q r IH]; simpl; [reflexivity|].
  rewrite has_id_updated. destruct (has_id i q) eqn:E; [|exact IH].
  simpl. rewrite IH. unfold updated. now rewrite E.
Qed.

Lemma find_updated (d : option jsstring) (i : Z) (l : list Product) :
  find (has_id i) (map (updated d i) l)
  = option_map (set_description d) (find (has_id i) l).
Proof.
  induction l as [|q r IH]; simpl; [reflexivity|].
  rewrite has_id_updated. destruct (has_id i q) eqn:E; [|exact IH].
  simpl. unfold updated. now rewrite E.
Qed.

(** The update of one id leaves the rows of the other ids as they are. *)
Lemma find_updated_other (d : option jsstring) (i j : Z) (l : list Product) :
  j <> i ->
  find (has_id j) (map (updated d i) l) = find (has_id j) l.
Proof.
  intros Hj. induction l as [|q r IH]; simpl; [reflexivity|].
  rewrite has_id_updated. destruct (has_id j q) eqn:E; [|exact IH].
  unfold updated, has_id in *. apply Z.eqb_eq in E.
  destruct (id q =? i) eqn:F; [apply Z.eqb_eq in F; lia | reflexivity].
Qed.

Lemma map_updated_absent (d : option jsstring) (i : Z) (l : list Product) :
  find (has_id i) l = None -> map (updated d i) l = l.
Proof.
  induction l as [|q r IH]; simpl; [reflexivity|].
  destruct (has_id i q) eqn:E; [discriminate|].
  intros H. rewrite (IH H). unfold updated. now rewrite E.
Qed.

Lemma find_deleted (i : Z) (l : list Product) :
  find (has_id i) (filter (fun p => negb (has_id i p)) l) = None.
Proof.
  induction l as [|q r IH]; simpl; [reflexivity|].
  destruct (has_id i q) eqn:E; simpl; [exact IH|].
  now rewrite E.
Qed.

Lemma find_deleted_other (i j : Z) (l : list Product) :
  j <> i ->
  find (has_id j) (filter (fun p => negb (has_id i p)) l) = find (has_id j) l.
Proof.
  intros Hj. induction l as [|q r IH]; simpl; [reflexivity|].
  destruct (has_id i q) eqn:E; simpl.
  - unfold has_id in *. apply Z.eqb_eq in E.
    destruct (id q =? j) eqn:F; [apply Z.eqb_eq in F; lia | exact IH].
  - destruct (has_id j q); [reflexivity | exact IH].
Qed.

Lemma filter_absent (i : Z) (l : list Product) :
  find (has_id i) l = None -> filter (fun p => negb (has_id i p)) l = l.
Proof.
  induction l as [|q r IH]; simpl; [reflexivity|].
  destruct (has_id i q); simpl; [discriminate|].
  intros H. now rewrite (IH H).
Qed.

Lemma find_has_id (i : Z) (l : list Product) (p : Product) :
  find (has_id i) l = Some p -> id p = i /\ In p l.
Proof.
  intros H. destruct (find_some _ _ H) as [Hin Hid].
  split; [now apply Z.eqb_eq | exact Hin].
Qed.

Lemma find_appended (i : Z) (l : list Product) (p : Product) :
  find (has_id i) l = None -> id p = i ->
  find (has_id i) (l ++ [p]) = Some p.
Proof.
  intros Hn Hp. induction l as [|q r IH]; simpl in *.
  - unfold has_id. rewrite Hp, Z.eqb_refl. reflexivity.
  - destruct (has_id i q); [discriminate | now apply IH].
Qed.

Lemma find_fresh (i : Z) (l : list Product) :
  Forall (fun p => id p < i) l -> find (has_id i) l = None.
Proof.
  induction 1 as [|q r Hq _ IH]; simpl; [reflexivity|].
  unfold has_id at 1. destruct (id q =? i) eqn:E; [|exact IH].
  apply Z.eqb_eq in E. lia.
Qed.

Lemma fresh_not_in (i : Z) (l : list Product) :
  Forall (fun p => id p < i) l -> ~ In i (map id l).
Proof.
  intros H Hin. apply in_map_iff in Hin. destruct Hin as (p & Hp & Hin).
  rewrite Forall_forall in H. specialize (H p Hin). lia.
Qed.

Lemma NoDup_ids_filter (f : Product -> bool) (l : list Product) :
  NoDup (map id l) -> NoDup (map id (filter f l)).
Proof.
  induction l as [|q r IH]; simpl; [trivial|].
  intros H. inversion H as [|x xs Hnot Hnd]; subst.
  destruct (f q); simpl; [|now apply IH].
  constructor; [|now apply IH].
  intros Hin. apply Hnot. apply in_map_iff in Hin.
  destruct Hin as (p & Hp & Hin). apply filter_In in Hin.
  apply in_map_iff. exists p. tauto.
Qed.

Lemma empty_well_formed : well_formed Store.empty.
Proof. split; constructor. Qed.

(** Every statement keeps the ids distinct and below the sequence. *)
Lemma exec_well_formed (int4 : jsstring -> error + Z) (now : Z)
    (q : Statement) (d : Database) :
  well_formed d -> well_formed (snd (exec int4 now q d)).
Proof.
  intros [Hnd Hlt]. destruct q as [n a| |p|ds p|p]; cbn [exec].
  - assert (Hdrawn : well_formed (mkDatabase (rows d) (next_id d + 1))).
    { split; simpl; [exact Hnd|].
      eapply Forall_impl; [|exact Hlt]. simpl. intros x Hx. lia. }
    destruct n as [n|];
      [|destruct (INT4_MAX <? next_id d); [now split | exact Hdrawn]].
    destruct (varchar NAME_MAX n); [|now split].
    destruct (INT4_MAX <? next_id d); [now split|].
    split; simpl.
    + rewrite map_app. simpl. apply NoDup_app; [exact Hnd | repeat constructor; tauto |].
      intros x Hx [<-|[]]. simpl in Hx. now apply (fresh_not_in Hlt).
    + apply Forall_app. split.
      * eapply Forall_impl; [|exact Hlt]. simpl. intros x Hx. lia.
      * repeat constructor. simpl. lia.
  - now split.
  - destruct (int4 p); now split.
  - destruct (int4 p) as [e|i]; [now split|]. split; simpl.
    + rewrite map_map.
      rewrite (map_ext (fun x => id (updated ds i x)) id); [exact Hnd|].
      intros x. apply id_updated.
    + apply Forall_map. eapply Forall_impl; [|exact Hlt].
      simpl. intros x Hx. now rewrite id_updated.
  - destruct (int4 p) as [e|i]; [now split|]. split; simpl.
    + now apply NoDup_ids_filter.
    + apply Forall_forall. intros x Hx. apply filter_In in Hx.
      rewrite Forall_forall in Hlt. now apply Hlt.
Qed.

End StoreFacts.

(* ================================================================== *)
(** ** Facts about the effects *)

Module WorldFacts.

Arguments lit : simpl never.

Lemma or_else_nonempty (s fallback : jsstring) :
  s <> [] -> or_else s fallback = s.
Proof. destruct s; [congruence | reflexivity]. Qed.

Lemma db_query_fault (env : Env) (q : Statement) (w : World) (e : error) :
  store_fault env (queries w) = Some e ->
  db_query env q w
  = (Throw e, mkWorld (db w) (S (queries w)) (remote_calls w) (console w)).
Proof.
  intros H. unfold db_query. now rewrite H.
Qed.

Lemma db_query_exec (env : Env) (q : Statement) (w : World) :
  store_fault env (queries w) = None ->
  db_query env q w
  = (match fst (exec (int4_in env) (clock env (queries w)) q (db w)) with
     | inl e => Throw e
     | inr rs => Normal rs
     end,
     mkWorld (snd (exec (int4_in env) (clock env (queries w)) q (db w)))
             (S (queries w)) (remote_calls w) (console w)).
Proof.
  intros H. unfold db_query. rewrite H.
  destruct (exec (int4_in env) (clock env (queries w)) q (db w)) as [[e|rs] d];
    reflexivity.
Qed.

Lemma db_query_keeps (env : Env) (q : Statement) :
  keeps_well_formed (db_query env q).
Proof.
  intros w Hw. unfold db_query.
  destruct (store_fault env (queries w)); [exact Hw|].
  pose proof (StoreFacts.exec_well_formed (int4_in env) (clock env (queries w)) q Hw) as H.
  destruct (exec (int4_in env) (clock env (queries w)) q (db w)) as [[e|rs] d];
    exact H.
Qed.

Lemma ret_keeps {A} (a : A) : keeps_well_formed (ret a).
Proof. intros w Hw. exact Hw. Qed.

Lemma throw_keeps {A} (e : error) : keeps_well_formed (@throw A e).
Proof. intros w Hw. exact Hw. Qed.

Lemma bind_keeps {A B} (m : M A) (k : A -> M B) :
  keeps_well_formed m -> (forall a, keeps_well_formed (k a)) ->
  keeps_well_formed (bind m k).
Proof.
  intros Hm Hk w Hw. unfold bind. specialize (Hm w Hw).
  destruct (m w) as [[a|e] w']; [now apply Hk | exact Hm].
Qed.

Lemma try_catch_keeps {A} (m : M A) (h : error -> M A) :
  keeps_well_formed m -> (forall e, keeps_well_formed (h e)) ->
  keeps_well_formed (try_catch m h).
Proof.
  intros Hm Hh w Hw. unfold try_catch. specialize (Hm w Hw).
  destruct (m w) as [[a|e] w']; [exact Hm | now apply Hh].
Qed.

Lemma console_log_keeps (t : jsstring) : keeps_well_formed (console_log t).
Proof. intros w Hw. exact Hw. Qed.

Lemma console_error_keeps (a : list jsstring) : keeps_well_formed (console_error a).
Proof. intros w Hw. exact Hw. Qed.

Lemma run_keeps (env : Env) (c : Replicate.Call) : keeps_well_formed (run env c).
Proof.
  intros w Hw. unfold run.
  destruct (replicate_run env (length (remote_calls w)) c); exact Hw.
Qed.

Lemma ret_read_only {A} (a : A) : read_only (ret a).
Proof. intros w. reflexivity. Qed.

Lemma throw_read_only {A} (e : error) : read_only (@throw A e).
Proof. intros w. reflexivity. Qed.

Lemma bind_read_only {A B} (m : M A) (k : A -> M B) :
  read_only m -> (forall a, read_only (k a)) -> read_only (bind m k).
Proof.
  intros Hm Hk w. unfold bind. specialize (Hm w).
  destruct (m w) as [[a|e] w']; [now rewrite Hk | exact Hm].
Qed.

Lemma try_catch_read_only {A} (m : M A) (h : error -> M A) :
  read_only m -> (forall e, read_only (h e)) -> read_only (try_catch m h).
Proof.
  intros Hm Hh w. unfold try_catch. specialize (Hm w).
  destruct (m w) as [[a|e] w']; [exact Hm | now rewrite Hh].
Qed.

Lemma console_log_read_only (t : jsstring) : read_only (console_log t).
Proof. intros w. reflexivity. Qed.

Lemma console_error_read_only (a : list jsstring) : read_only (console_error a).
Proof. intros w. reflexivity. Qed.

Lemma run_read_only (env : Env) (c : Replicate.Call) : read_only (run env c).
Proof.
  intros w. unfold run.
  now destruct (replicate_run env (length (remote_calls w)) c).
Qed.

Create HintDb keeps.

#[export] Hint Resolve db_query_keeps ret_keeps throw_keeps console_log_keeps
  console_error_keeps run_keeps : keeps.
#[export] Hint Resolve ret_read_only throw_read_only console_log_read_only
  console_error_read_only run_read_only : keeps.

(** Closes a goal [keeps_well_formed m] or [read_only m] by following the
    structure of [m]. *)
Ltac structural :=
  repeat first
    [ apply bind_keeps; [|intros ?]
    | apply try_catch_keeps; [|intros ?]
    | apply bind_read_only; [|intros ?]
    | apply try_catch_read_only; [|intros ?]
    | solve [auto with keeps]
    | match goal with
      | |- context [match ?x with _ => _ end] => destruct x
      end ].

End WorldFacts.

(* ================================================================== *)
(** ** Facts about the generation client *)

Module AiFacts.

Import WorldFacts.

Lemma prompt_embeds (productName attributes : value) :
  AiService.template_literal
    [AiService.Quasi AiService.prompt_head; AiService.Subst productName;
     AiService.Quasi AiService.prompt_middle; AiService.Subst attributes;
     AiService.Quasi AiService.prompt_tail]
  = AiService.prompt_head ++ to_string productName
    ++ AiService.prompt_middle ++ to_string attributes ++ AiService.prompt_tail.
Proof. reflexivity. Qed.

Lemma join_keeps (o : Replicate.Output) : keeps_well_formed (AiService.join o).
Proof. destruct o; simpl; auto with keeps. Qed.

Lemma join_read_only (o : Replicate.Output) : read_only (AiService.join o).
Proof. destruct o; simpl; auto with keeps. Qed.

#[export] Hint Resolve join_keeps join_read_only : keeps.

Lemma generateDescription_keeps (env : Env) (n a : value) :
  keeps_well_formed (AiService.generateDescription env n a).
Proof. unfold AiService.generateDescription. structural. Qed.

(** The generation client never writes to the table. *)
Lemma generateDescription_read_only (env : Env) (n a : value) :
  read_only (AiService.generateDescription env n a).
Proof. unfold AiService.generateDescription. structural. Qed.

(** Whatever its outcome, an invocation makes one remote call, the one
    [call_for] describes, and no query. *)
Lemma generateDescription_calls (env : Env) (n a : value) (w : World) :
  remote_calls (snd (AiService.generateDescription env n a w))
  = call_for n a :: remote_calls w
  /\ queries (snd (AiService.generateDescription env n a w)) = queries w.
Proof.
  unfold AiService.generateDescription. rewrite prompt_embeds.
  fold (call_for n a).
  unfold bind, try_catch, console_log, console_error, run, throw, ret.
  cbn [remote_calls queries db console snd fst].
  destruct (replicate_run env (length (remote_calls w)) (call_for n a)) as [e|o].
  - split; reflexivity.
  - destruct o as [| |fragments]; cbn; try (split; reflexivity).
    destruct (join_empty fragments); split; reflexivity.
Qed.

Lemma generateDescription_failure (env : Env) (n a : value) (w : World)
    (m : jsstring) :
  failure_message (replicate_run env (length (remote_calls w)) (call_for n a))
    = Some m ->
  fst (AiService.generateDescription env n a w) = Throw (Error m).
Proof.
  unfold AiService.generateDescription. rewrite prompt_embeds.
  fold (call_for n a).
  unfold bind, try_catch, console_log, console_error, run, throw, ret.
  cbn [remote_calls queries db console snd fst].
  destruct (replicate_run env (length (remote_calls w)) (call_for n a)) as [e|o].
  - cbn. intros [= <-]. unfold or_else. now destruct (message e).
  - destruct o as [| |fragments]; cbn.
    + now intros [= <-].
    + now intros [= <-].
    + unfold join_empty. destruct (concat fragments); [|discriminate].
      now intros [= <-].
Qed.

Lemma generateDescription_success (env : Env) (n a : value) (w : World)
    (fragments : list jsstring) :
  replicate_run env (length (remote_calls w)) (call_for n a)
    = Replicate.Resolves (Replicate.OutArray fragments) ->
  concat fragments <> [] ->
  fst (AiService.generateDescription env n a w)
  = Normal (trim (concat fragments)).
Proof.
  unfold AiService.generateDescription. rewrite prompt_embeds.
  fold (call_for n a).
  unfold bind, try_catch, console_log, console_error, run, throw, ret.
  cbn [remote_calls queries db console snd fst].
  intros -> Hne. cbn. unfold join_empty.
  destruct (concat fragments); [congruence | reflexivity].
Qed.

(** An outcome is a failure or carries text: the two lemmas above cover
    every invocation. *)
Lemma failure_or_text (o : Replicate.Outcome) :
  (exists m, failure_message o = Some m /\ m <> [])
  \/ (exists fragments,
        o = Replicate.Resolves (Replicate.OutArray fragments)
        /\ concat fragments <> []).
Proof.
  destruct o as [e|[| |fragments]]; simpl.
  - left. destruct (message e) eqn:E; eexists; (split; [reflexivity|]).
    + discriminate.
    + discriminate.
  - left. eexists. split; [reflexivity | discriminate].
  - left. eexists. split; [reflexivity | discriminate].
  - destruct (concat fragments) eqn:E.
    + left. eexists. split; [reflexivity | discriminate].
    + right. exists fragments. split; [reflexivity | congruence].
Qed.

(** The error of a failed generation always has a message. *)
Lemma generateDescription_throws_message (env : Env) (n a : value) (w : World)
    (e : error) :
  fst (AiService.generateDescription env n a w) = Throw e -> message e <> [].
Proof.
  intros H.
  destruct (failure_or_text
              (replicate_run env (length (remote_calls w)) (call_for n a)))
    as [(m & Hm & Hne) | (fragments & Ho & Hne)].
  - rewrite (generateDescription_failure env n a w Hm) in H.
    injection H as <-. exact Hne.
  - rewrite (generateDescription_success env n a w Ho Hne) in H. discriminate.
Qed.

End AiFacts.

(* ================================================================== *)
(** ** Facts about the handlers *)

Module ServerFacts.

Import WorldFacts AiFacts.

Lemma server_error_keeps (e : error) : keeps_well_formed (server_error e).
Proof. unfold server_error. structural. Qed.

#[export] Hint Resolve server_error_keeps generateDescription_keeps : keeps.

(** Every handler keeps the ids of the table distinct and below the
    sequence. *)
Lemma handle_keeps (env : Env) (r : Route) (req : Request) :
  keeps_well_formed (handle env r req).
Proof.
  destruct r; unfold handle, create, list_all, get, update, delete,
    generate_description; structural.
Qed.

Lemma reachable_well_formed (env : Env) (w : World) :
  reachable env w -> well_formed (db w).
Proof.
  induction 1 as [|r req w _ IH].
  - apply StoreFacts.empty_well_formed.
  - now apply handle_keeps.
Qed.

(** A successful [INSERT]: the new row takes the next id of the sequence. *)
Lemma create_ok_chars (env : Env) (req : Request) (w : World) (n a : jsstring) :
  body_name req = Str n -> body_attributes req = Str a ->
  n <> [] -> a <> [] -> (char_length n <= NAME_MAX)%nat ->
  store_fault env (queries w) = None ->
  next_id (db w) <= INT4_MAX ->
  let p := mkProduct (next_id (db w)) n (Some a) None (clock env (queries w)) in
  create env req w
  = (Normal (mkResponse 201 (JsonRow (Some p))),
     after_query (mkDatabase (rows (db w) ++ [p]) (next_id (db w) + 1)) w).
Proof.
  intros Hn Ha Hne Hae Hlen Hf Hseq p.
  unfold create, try_catch, bind. rewrite Hn, Ha.
  destruct n as [|c n]; [congruence|]. destruct a as [|c' a]; [congruence|].
  cbn [truthy negb orb prepareValue].
  rewrite (db_query_exec env _ w Hf). cbn [exec].
  rewrite (CharFacts.varchar_fits _ Hlen).
  destruct (INT4_MAX <? next_id (db w)) eqn:E; [apply Z.ltb_lt in E; lia|].
  reflexivity.
Qed.

Lemma create_ok (env : Env) (req : Request) (w : World) (n a : jsstring) :
  body_name req = Str n -> body_attributes req = Str a ->
  acceptable n a ->
  store_fault env (queries w) = None ->
  next_id (db w) <= INT4_MAX ->
  let p := mkProduct (next_id (db w)) n (Some a) None (clock env (queries w)) in
  create env req w
  = (Normal (mkResponse 201 (JsonRow (Some p))),
     after_query (mkDatabase (rows (db w) ++ [p]) (next_id (db w) + 1)) w).
Proof.
  intros Hn Ha (Hne & Hae & Hlen) Hf Hseq.
  apply create_ok_chars; trivial.
  pose proof (CharFacts.char_length_le n). lia.
Qed.

(** A [SELECT ... WHERE id] that the store runs. *)
Lemma select_ok (env : Env) (p : jsstring) (w : World) (i : Z) :
  int4_in env p = inr i ->
  store_fault env (queries w) = None ->
  db_query env (SelectById p) w
  = (Normal (filter (has_id i) (rows (db w))), after_query (db w) w).
Proof.
  intros Hi Hf. rewrite (db_query_exec env _ w Hf). cbn [exec]. now rewrite Hi.
Qed.

Lemma update_ok (env : Env) (p : jsstring) (d : option jsstring) (w : World) (i : Z) :
  int4_in env p = inr i ->
  store_fault env (queries w) = None ->
  db_query env (UpdateDescription d p) w
  = (Normal (map (set_description d) (filter (has_id i) (rows (db w)))),
     after_query (mkDatabase (map (updated d i) (rows (db w))) (next_id (db w))) w).
Proof.
  intros Hi Hf. rewrite (db_query_exec env _ w Hf). cbn [exec]. rewrite Hi.
  cbn [fst snd]. now rewrite StoreFacts.filter_updated.
Qed.

Lemma delete_ok (env : Env) (p : jsstring) (w : World) (i : Z) :
  int4_in env p = inr i ->
  store_fault env (queries w) = None ->
  db_query env (DeleteById p) w
  = (Normal (filter (has_id i) (rows (db w))),
     after_query (mkDatabase (filter (fun r => negb (has_id i r)) (rows (db w)))
                             (next_id (db w))) w).
Proof.
  intros Hi Hf. rewrite (db_query_exec env _ w Hf). cbn [exec]. now rewrite Hi.
Qed.

(** The generate-description handler when the generation succeeds: the
    text is written to the record, and the updated record is returned. *)
Lemma generate_ok (env : Env) (req : Request) (w : World) (i : Z)
    (product : Product) (text : jsstring) (w2 : World) :
  int4_in env (params_id req) = inr i ->
  lookup i (db w) = Some product ->
  store_fault env (queries w) = None ->
  AiService.generateDescription env (Str (name product))
      (column (attributes product)) (at_generation product w) = (Normal text, w2) ->
  store_fault env (queries w2) = None ->
  exists w',
    generate_description env req w
    = (Normal (mkResponse 200
         (JsonRow (Some (set_description (Some text) product)))), w')
    /\ lookup i (db w') = Some (set_description (Some text) product).
Proof.
  intros Hi Hp Hf Hg Hf2.
  destruct (StoreFacts.find_filter _ _ Hp) as (rest & Hrows).
  pose proof (generateDescription_read_only env (Str (name product))
                (column (attributes product)) (at_generation product w)) as Hdb.
  rewrite Hg in Hdb. cbn [snd at_generation db] in Hdb.
  unfold generate_description, try_catch, bind.
  rewrite (select_ok env _ w Hi Hf), Hrows.
  unfold console_log at 1. cbn [after_query db queries remote_calls console].
  fold (at_generation product w). rewrite Hg.
  rewrite (update_ok env _ _ w2 Hi Hf2), Hdb, Hrows. cbn [map hd_error].
  eexists. split; [reflexivity|].
  unfold lookup, after_query. cbn [db rows].
  rewrite StoreFacts.find_updated. unfold lookup in Hp. now rewrite Hp.
Qed.

End ServerFacts.

(* ================================================================== *)
(** ** The properties of the specification *)

Import WorldFacts AiFacts ServerFacts.

(** C1. For a product id present in the store, when the handler's call to
    the generation client fails with an error, the generate-description
    handler answers 500 with that error's message as the error payload and
    writes nothing: the only query issued is the [SELECT], the table is
    what it was, and the stored record (its description included) is
    unchanged. *)
Theorem generate_failure_keeps_store (env : Env) (req : Request) (w : World)
    (i : Z) (product : Product) (e : error) (w2 : World) :
  int4_in env (params_id req) = inr i ->
  lookup i (db w) = Some product ->
  store_fault env (queries w) = None ->
  AiService.generateDescription env (Str (name product))
      (column (attributes product)) (at_generation product w) = (Throw e, w2) ->
  exists w',
    generate_description env req w
    = (Normal (mkResponse 500 (JsonError (message e))), w')
    /\ db w' = db w
    /\ lookup i (db w') = Some product
    /\ queries w' = S (queries w).
Proof.
  intros Hi Hp Hf Hg.
  destruct (StoreFacts.find_filter _ _ Hp) as (rest & Hrows).
  pose proof (@generateDescription_throws_message env (Str (name product))
                (column (attributes product)) (at_generation product w)) as Hm.
  pose proof (generateDescription_read_only env (Str (name product))
                (column (attributes product)) (at_generation product w)) as Hdb.
  pose proof (generateDescription_calls env (Str (name product))
                (column (attributes product)) (at_generation product w)) as [_ Hq].
  rewrite Hg in Hm, Hdb, Hq. cbn [fst snd] in Hm, Hdb, Hq.
  specialize (Hm e eq_refl).
  unfold generate_description, try_catch, bind.
  rewrite (select_ok env _ w Hi Hf), Hrows.
  unfold console_log at 1. cbn [after_query db queries remote_calls console].
  fold (at_generation product w). rewrite Hg.
  unfold console_error, ret. cbn [db queries remote_calls console].
  rewrite (or_else_nonempty _ Hm).
  eexists. split; [reflexivity|split; [|split]].
  - exact Hdb.
  - cbn [db]. unfold lookup. rewrite Hdb. exact Hp.
  - exact Hq.
Qed.

Lemma generate_failure_keeps_store_witness :
  let env := Scenario.calm Scenario.overloaded in
  let req := id_request (lit "1") in
  let w := Scenario.world_of [Scenario.described_tee] 2 in
  exists w',
    generate_description env req w
    = (Normal (mkResponse 500
         (JsonError (lit "Request failed with status 429 Too Many Requests"))), w')
    /\ db w' = db w
    /\ lookup 1 (db w') = Some Scenario.described_tee
    /\ queries w' = 1%nat.
Proof.
  intros env req w.
  exact (@generate_failure_keeps_store env req w 1 Scenario.described_tee
           (Error (lit "Request failed with status 429 Too Many Requests"))
           (snd (AiService.generateDescription env
                   (Str (name Scenario.described_tee))
                   (column (attributes Scenario.described_tee))
                   (at_generation Scenario.described_tee w)))
           eq_refl eq_refl eq_refl eq_refl).
Defined.

(** C2, as stated, fails: when the fragments concatenate to the empty
    string the client does not return the (empty) trimmed text, it throws. *)
Lemma generateDescription_empty_fragments_throw :
  let env := Scenario.calm Scenario.nothing in
  let n := Str (lit "Stussy 8-Ball Tee") in
  let a := Str (lit "Cotton, Black, Size L") in
  replicate_run env 0 (call_for n a) = Replicate.Resolves (Replicate.OutArray [])
  /\ fst (AiService.generateDescription env n a initial_world)
     = Throw AiService.no_text
  /\ fst (AiService.generateDescription env n a initial_world)
     <> Normal (trim (concat [])).
Proof.
  intros env n a. split; [reflexivity|]. split; [reflexivity|].
  intros H. discriminate H.
Qed.

(** C2, amended. For every name and attributes and every sequence of
    fragments whose concatenation is not empty, the generation client sends
    one call whose prompt is the fixed template with the name and the
    attributes embedded verbatim, and returns the fragments concatenated in
    order without separator and trimmed: the concatenation less a run of
    white space at each end, with no white space left at either end.  For
    the fragments "Great " and "shirt." the client returns, and the handler
    stores and returns, "Great shirt.". *)
Theorem generateDescription_returns_trimmed (env : Env) (n a : jsstring)
    (fragments : list jsstring) (w : World) :
  replicate_run env (length (remote_calls w)) (call_for (Str n) (Str a))
    = Replicate.Resolves (Replicate.OutArray fragments) ->
  concat fragments <> [] ->
  let r := AiService.generateDescription env (Str n) (Str a) w in
  (exists c,
     remote_calls (snd r) = c :: remote_calls w
     /\ Replicate.prompt (Replicate.input c)
        = AiService.prompt_head ++ n ++ AiService.prompt_middle ++ a
          ++ AiService.prompt_tail)
  /\ fst r = Normal (trim (concat fragments))
  /\ (exists before after,
        concat fragments = before ++ trim (concat fragments) ++ after
        /\ all_white_space before /\ all_white_space after)
  /\ starts_clean (trim (concat fragments))
  /\ ends_clean (trim (concat fragments))
  /\ (let env0 := Scenario.calm Scenario.great_shirt in
      let w0 := Scenario.world_of [Scenario.tee] 2 in
      let served := generate_description env0 (id_request (lit "1")) w0 in
      let stored := set_description (Some (lit "Great shirt.")) Scenario.tee in
      fst (AiService.generateDescription env0 (Str (name Scenario.tee))
             (column (attributes Scenario.tee)) w0)
      = Normal (lit "Great shirt.")
      /\ fst served = Normal (mkResponse 200 (JsonRow (Some stored)))
      /\ lookup 1 (db (snd served)) = Some stored).
Proof.
  intros Ho Hne r.
  destruct (TrimFacts.trim_spec (concat fragments)) as (Hsplit & Hs & He).
  split; [|split; [|split; [|split; [|split]]]]; trivial.
  - exists (call_for (Str n) (Str a)). split; [|reflexivity].
    apply generateDescription_calls.
  - now apply generateDescription_success.
  - vm_compute. repeat split.
Qed.

Lemma generateDescription_returns_trimmed_witness :
  let env := Scenario.calm Scenario.great_shirt in
  let r := AiService.generateDescription env (Str (lit "Stussy 8-Ball Tee"))
             (Str (lit "Cotton, Black, Size L")) initial_world in
  fst r = Normal (lit "Great shirt.").
Proof.
  intros env r.
  exact (proj1 (proj2
    (@generateDescription_returns_trimmed env (lit "Stussy 8-Ball Tee")
       (lit "Cotton, Black, Size L") [lit "Great "; lit "shirt."] initial_world
       eq_refl (fun H => match H with eq_refl => I end)))).
Defined.

(** What the generation client does by design: every invocation makes
    exactly one remote call; a rejected call is rethrown with the remote
    error's message, or with the fallback message when the remote error has
    none; a result whose fragments carry no text fails with the client's
    own message for an empty result. *)
Lemma generateDescription_failure_messages (env : Env) (n a : value) (w : World) :
  let o := replicate_run env (length (remote_calls w)) (call_for n a) in
  let r := AiService.generateDescription env n a w in
  remote_calls (snd r) = call_for n a :: remote_calls w
  /\ (forall e, o = Replicate.Rejects e -> message e <> [] ->
        fst r = Throw (Error (message e)))
  /\ (forall e, o = Replicate.Rejects e -> message e = [] ->
        fst r = Throw (Error (lit "Failed to generate description from AI Replicate.")))
  /\ (forall fragments,
        o = Replicate.Resolves (Replicate.OutArray fragments) ->
        concat fragments = [] ->
        fst r = Throw (Error (lit "Replicate API did not return any text."))).
Proof.
  intros o r. split; [apply generateDescription_calls|].
  repeat split.
  - intros e Ho Hm. apply generateDescription_failure. fold o. rewrite Ho.
    simpl. destruct (message e); [congruence | reflexivity].
  - intros e Ho Hm. apply generateDescription_failure. fold o. rewrite Ho.
    simpl. now rewrite Hm.
  - intros fragments Ho Hc. apply generateDescription_failure. fold o.
    rewrite Ho. simpl. now rewrite Hc.
Qed.

Lemma generateDescription_failure_messages_example :
  let env := Scenario.calm Scenario.overloaded in
  let n := Str (lit "Stussy 8-Ball Tee") in
  let a := Str (lit "Cotton, Black, Size L") in
  let r := AiService.generateDescription env n a initial_world in
  remote_calls (snd r) = [call_for n a]
  /\ fst r = Throw (Error (lit "Request failed with status 429 Too Many Requests")).
Proof.
  intros env n a r.
  pose (T := generateDescription_failure_messages env n a initial_world).
  split.
  - exact (proj1 T).
  - refine (proj1 (proj2 T) _ eq_refl _). discriminate.
Defined.

(** C4, at an absent result.  When the one remote call resolves to
    [undefined] or to [null], [output.join] throws before the test for an
    empty description is reached, and the catch block rethrows the message
    of that [TypeError].  The client makes its single call and fails, but
    the failure carries none of the messages the policy names: the remote
    service gave no error, and the message is neither the fallback
    'Failed to generate description from AI Replicate.' nor the message for
    an empty result, 'Replicate API did not return any text.'.  The
    generate-description handler then sends the engine's message to the
    caller in a 500. *)
Theorem generateDescription_absent_result :
  let n := Str (lit "Stussy 8-Ball Tee") in
  let a := Str (lit "Cotton, Black, Size L") in
  let undefined_ := Scenario.calm (Replicate.Resolves Replicate.OutUndefined) in
  let null_ := Scenario.calm (Replicate.Resolves Replicate.OutNull) in
  let r := AiService.generateDescription undefined_ n a initial_world in
  let r' := AiService.generateDescription null_ n a initial_world in
  let answer :=
    generate_description undefined_ (id_request (lit "1"))
                         (Scenario.world_of [Scenario.tee] 2) in
  fst r = Throw (Error (lit "Cannot read properties of undefined (reading 'join')"))
  /\ fst r' = Throw (Error (lit "Cannot read properties of null (reading 'join')"))
  /\ fst r <> Throw (Error (lit "Failed to generate description from AI Replicate."))
  /\ fst r <> Throw (Error (lit "Replicate API did not return any text."))
  /\ fst r' <> Throw (Error (lit "Failed to generate description from AI Replicate."))
  /\ fst r' <> Throw (Error (lit "Replicate API did not return any text."))
  /\ remote_calls (snd r) = [call_for n a]
  /\ remote_calls (snd r') = [call_for n a]
  /\ fst answer
     = Normal (mkResponse 500
         (JsonError (lit "Cannot read properties of undefined (reading 'join')")))
  /\ rows (db (snd answer)) = [Scenario.tee].
Proof.
  intros n a undefined_ null_ r r' answer.
  repeat split; try reflexivity; vm_compute; intros H; discriminate H.
Qed.

(** C6. A create request whose name or attributes is missing or empty is
    answered 400 with a message that says both are required, and nothing
    is written: no query is issued and the world, so the set of stored
    records, is exactly what it was. *)
Theorem create_missing_field_rejected (env : Env) (req : Request) (w : World) :
  truthy (body_name req) = false \/ truthy (body_attributes req) = false ->
  create env req w
  = (Normal (mkResponse 400 (JsonError (lit "Name and attributes are required"))), w).
Proof.
  intros H. unfold create, try_catch.
  destruct (truthy (body_name req)), (truthy (body_attributes req));
    try reflexivity.
  destruct H; discriminate.
Qed.

Lemma create_missing_field_rejected_witness :
  let req := mkRequest [] (Str (lit "Stussy 8-Ball Tee")) (Str []) Undefined in
  let w := Scenario.world_of [Scenario.tee] 2 in
  create (Scenario.calm Scenario.nothing) req w
  = (Normal (mkResponse 400 (JsonError (lit "Name and attributes are required"))), w).
Proof.
  intros req w.
  exact (@create_missing_field_rejected (Scenario.calm Scenario.nothing) req w
           (or_intror eq_refl)).
Defined.

(** C3, as stated, fails: the generate-description handler answers a
    failure of the store with that failure's own message. *)
Lemma generate_description_passes_store_failure :
  let env := Scenario.broken_store Scenario.connection_lost in
  let req := id_request (lit "1") in
  fst (db_query env (statement_of PostGenerateDescription req) initial_world)
  = Throw Scenario.connection_lost
  /\ fst (handle env PostGenerateDescription req initial_world)
     = Normal (mkResponse 500 (JsonError (lit "connect ECONNREFUSED 10.0.0.5:5432")))
  /\ fst (handle env PostGenerateDescription req initial_world)
     <> Normal generic_500.
Proof.
  intros env req. split; [reflexivity|]. split; [reflexivity|].
  intros H. discriminate H.
Qed.

(** C3, amended. For the create, list, get, update and delete handlers,
    every failure raised by the store is answered by the same generic 500,
    whatever the failure, and its message goes to the server's console
    only.  The generate-description handler answers a failure of the store
    with a 500 whose error payload is the failure's message (a generic
    message only when the failure has none), and logs it too. *)
Theorem store_failure_responses (env : Env) (req : Request) (w : World)
    (e : error) (w1 : World) :
  (forall r, r <> PostGenerateDescription -> validated r req ->
     db_query env (statement_of r req) w = (Throw e, w1) ->
     handle env r req w
     = (Normal generic_500, logged (ConsoleError [message e]) w1))
  /\ (generate_store_failure env req w e w1 ->
      handle env PostGenerateDescription req w
      = (Normal (mkResponse 500
           (JsonError (or_else (message e)
                         (lit "Server Error: Failed to generate description")))),
         logged (ConsoleError
                   [lit "[API] Error generating description: " ++ message e]) w1)).
Proof.
  split.
  - intros r Hr Hv Hq.
    destruct r; try congruence; clear Hr;
      cbn [handle statement_of] in *;
      unfold create, list_all, get, update, delete, try_catch, bind.
    + destruct Hv as [Hn Ha]. rewrite Hn, Ha. cbn [negb orb].
      rewrite Hq. reflexivity.
    + rewrite Hq. reflexivity.
    + rewrite Hq. reflexivity.
    + rewrite Hq. reflexivity.
    + rewrite Hq. reflexivity.
  - intros [Hq | (product & rest & w0 & text & w2 & Hs & Hg & Hu)];
      cbn [handle]; unfold generate_description, try_catch, bind.
    + rewrite Hq. reflexivity.
    + rewrite Hs.
      destruct (console_log
                  (lit "[API] Calling AI Service for product: " ++ name product) w0)
        as [c wl] eqn:El.
      assert (Hc : c = Normal tt) by (unfold console_log in El; congruence).
      subst c. cbn [snd] in Hg. rewrite Hg, Hu. reflexivity.
Qed.

Lemma store_failure_responses_witness :
  let env := Scenario.broken_store Scenario.connection_lost in
  let req := id_request (lit "1") in
  fst (handle env GetProduct req initial_world) = Normal generic_500
  /\ console (snd (handle env GetProduct req initial_world))
     = [ConsoleError [lit "connect ECONNREFUSED 10.0.0.5:5432"]].
Proof.
  intros env req.
  pose (T := proj1 (@store_failure_responses env req initial_world
                      Scenario.connection_lost
                      (after_query Store.empty initial_world))
               GetProduct
               (fun H => match H with eq_refl => I end) I eq_refl).
  split.
  - exact (f_equal fst T).
  - exact (f_equal (fun x => console (snd x)) T).
Defined.

(** C5, as stated, fails on two inputs.  A description that is a number
    is stored and returned as the text the driver sends for it, not as the
    value supplied; and an id that is not in the store but does not fit
    the 32-bit id column is answered 500, not 404. *)
Lemma update_number_or_wide_id :
  let env := Scenario.calm Scenario.nothing in
  let w := Scenario.world_of [Scenario.described_tee] 2 in
  let forty_two := Other true (lit "42") 52%N (lit "2") in
  (exists r' w',
     update env (description_request (lit "1") forty_two) w
     = (Normal (mkResponse 200 (JsonRow (Some r'))), w')
     /\ column (description r') = Str (lit "42")
     /\ column (description r') <> forty_two)
  /\ lookup 2147483648 (db w) = None
  /\ fst (update env (description_request (lit "2147483648") (Str (lit "Tee"))) w)
     = Normal (mkResponse 500 (Text (lit "Server Error"))).
Proof.
  intros env w forty_two. split; [|split; reflexivity].
  do 2 eexists. split; [reflexivity|]. split; [reflexivity | discriminate].
Qed.

(** C5, amended. For a product id present in the store and a description
    value in the request body that is null or text the database stores as
    it is sent, on a store that runs the update, update-description
    answers 200 with the full updated record: its description is exactly
    the supplied value and its id, name, attributes and creation time are
    those of the stored record; the record is stored so, and the records
    of the other ids are untouched.  For an id that the database reads as
    an integer and that is not present in the store it answers 404 with
    the not-found error and the table is unchanged. *)
Theorem update_description_frame (env : Env) (req : Request) (w : World) (i : Z) :
  int4_in env (params_id req) = inr i ->
  store_fault env (queries w) = None ->
  (forall r, lookup i (db w) = Some r ->
     stored_as_sent (body_description req) ->
     exists r' w',
       update env req w = (Normal (mkResponse 200 (JsonRow (Some r'))), w')
       /\ column (description r') = body_description req
       /\ id r' = id r /\ name r' = name r /\ attributes r' = attributes r
       /\ created_at r' = created_at r
       /\ lookup i (db w') = Some r'
       /\ (forall j, j <> i -> lookup j (db w') = lookup j (db w)))
  /\ (lookup i (db w) = None ->
      update env req w
      = (Normal (mkResponse 404 (JsonError (lit "Product not found"))),
         after_query (db w) w)).
Proof.
  intros Hi Hf. split.
  - intros r Hr Hv. destruct (StoreFacts.find_filter _ _ Hr) as (rest & Hrows).
    exists (set_description (prepareValue (body_description req)) r).
    eexists. unfold update, try_catch, bind.
    rewrite (update_ok env _ _ w Hi Hf), Hrows. cbn [map].
    split; [reflexivity|]. cbn [set_description description id name attributes created_at].
    split; [destruct (body_description req); now try reflexivity|].
    repeat (split; [reflexivity|]). split.
    + unfold lookup, after_query. cbn [db rows].
      rewrite StoreFacts.find_updated. unfold lookup in Hr. now rewrite Hr.
    + intros j Hj. unfold lookup, after_query. cbn [db rows].
      now apply StoreFacts.find_updated_other.
  - intros Hr. unfold update, try_catch, bind.
    rewrite (update_ok env _ _ w Hi Hf).
    rewrite (StoreFacts.find_none_filter _ _ Hr). cbn [map].
    rewrite (StoreFacts.map_updated_absent _ _ _ Hr).
    now destruct (db w).
Qed.

Lemma update_description_frame_witness :
  let env := Scenario.calm Scenario.nothing in
  let req := description_request (lit "1") (Str (lit "Heavy cotton tee.")) in
  let w := Scenario.world_of [Scenario.described_tee] 2 in
  (exists r' w',
     update env req w = (Normal (mkResponse 200 (JsonRow (Some r'))), w')
     /\ column (description r') = Str (lit "Heavy cotton tee.")
     /\ id r' = 1 /\ name r' = lit "Stussy 8-Ball Tee"
     /\ attributes r' = Some (lit "Cotton, Black, Size L")
     /\ created_at r' = Scenario.epoch
     /\ lookup 1 (db w') = Some r'
     /\ (forall j, j <> 1 -> lookup j (db w') = lookup j (db w)))
  /\ update env (description_request (lit "7") (Str (lit "Heavy cotton tee."))) w
     = (Normal (mkResponse 404 (JsonError (lit "Product not found"))),
        after_query (db w) w).
Proof.
  intros env req w. split.
  - refine (proj1 (@update_description_frame env req w 1 eq_refl eq_refl)
              Scenario.described_tee eq_refl _).
    split; [reflexivity|]. vm_compute. intuition discriminate.
  - exact (proj2 (@update_description_frame env
                    (description_request (lit "7") (Str (lit "Heavy cotton tee.")))
                    w 7 eq_refl eq_refl) eq_refl).
Defined.

(** C10. For a product id present in the store, an update-description
    request whose body has no description field is not rejected: the
    update runs with the absent value, the answer is 200 with the record,
    and the stored description becomes null, whatever it was. *)
Theorem update_without_description_erases (env : Env) (req : Request)
    (w : World) (i : Z) (r : Product) :
  int4_in env (params_id req) = inr i ->
  store_fault env (queries w) = None ->
  body_description req = Undefined ->
  lookup i (db w) = Some r ->
  exists r' w',
    update env req w = (Normal (mkResponse 200 (JsonRow (Some r'))), w')
    /\ r' = set_description None r
    /\ description r' = None
    /\ lookup i (db w') = Some r'.
Proof.
  intros Hi Hf Hv Hr. destruct (StoreFacts.find_filter _ _ Hr) as (rest & Hrows).
  exists (set_description None r). eexists.
  unfold update, try_catch, bind.
  rewrite (update_ok env _ _ w Hi Hf), Hrows, Hv. cbn [map prepareValue].
  split; [reflexivity|]. split; [reflexivity|]. split; [reflexivity|].
  unfold lookup, after_query. cbn [db rows].
  rewrite StoreFacts.find_updated. unfold lookup in Hr. now rewrite Hr.
Qed.

Lemma update_without_description_erases_witness :
  let env := Scenario.calm Scenario.nothing in
  let req := description_request (lit "1") Undefined in
  let w := Scenario.world_of [Scenario.described_tee] 2 in
  description Scenario.described_tee = Some (lit "An older description.")
  /\ exists r' w',
       update env req w = (Normal (mkResponse 200 (JsonRow (Some r'))), w')
       /\ r' = set_description None Scenario.described_tee
       /\ description r' = None
       /\ lookup 1 (db w') = Some r'.
Proof.
  intros env req w. split; [reflexivity|].
  exact (@update_without_description_erases env req w 1 Scenario.described_tee
           eq_refl eq_refl eq_refl eq_refl).
Defined.

(** C7, as stated, fails: a name of 101 characters is a non-empty string,
    the table refuses it, and the answer is 500. *)
Lemma create_long_name_refused :
  let req := create_request Scenario.long_name (lit "Cotton, Black, Size L") in
  Scenario.long_name <> [] /\ length Scenario.long_name = 101%nat
  /\ fst (create (Scenario.calm Scenario.nothing) req initial_world)
     = Normal generic_500
  /\ rows (db (snd (create (Scenario.calm Scenario.nothing) req initial_world)))
     = [].
Proof.
  intros req. split; [discriminate|]. repeat split.
Qed.

(** C7, amended. For every create request whose name and attributes are
    non-empty strings of text the database stores as it is sent, with a
    name of at most 100 characters (a character outside the Basic
    Multilingual Plane, two code units, counts as one), on a store that
    runs the insert (no failure, sequence not exhausted), the answer is
    201 with the created record: its id is the next value of the sequence
    and differs from the id of every existing record, its creation time
    is the time of the statement, its description is null, its name and
    attributes are those of the request, and it is stored as returned. *)
Theorem create_assigns_fresh_id (env : Env) (req : Request) (w : World)
    (n a : jsstring) :
  well_formed (db w) ->
  body_name req = Str n -> n <> [] -> plain_text n ->
  body_attributes req = Str a -> a <> [] -> plain_text a ->
  (char_length n <= NAME_MAX)%nat ->
  store_fault env (queries w) = None ->
  next_id (db w) <= INT4_MAX ->
  exists p w',
    create env req w = (Normal (mkResponse 201 (JsonRow (Some p))), w')
    /\ id p = next_id (db w)
    /\ ~ In (id p) (map id (rows (db w)))
    /\ name p = n /\ attributes p = Some a
    /\ description p = None
    /\ created_at p = clock env (queries w)
    /\ lookup (id p) (db w') = Some p
    /\ well_formed (db w').
Proof.
  intros [Hnd Hlt] Hn Hne _ Ha Hae _ Hlen Hf Hseq.
  do 2 eexists.
  rewrite (create_ok_chars env req w Hn Ha Hne Hae Hlen Hf Hseq).
  split; [reflexivity|]. cbn [id name attributes description created_at].
  split; [reflexivity|]. split; [now apply StoreFacts.fresh_not_in|].
  repeat (split; [reflexivity|]). split.
  - unfold lookup, after_query. cbn [db rows].
    apply StoreFacts.find_appended; [now apply StoreFacts.find_fresh | reflexivity].
  - pose proof (handle_keeps env PostProducts req w (conj Hnd Hlt)) as Hk.
    cbn [handle] in Hk.
    now rewrite (create_ok_chars env req w Hn Ha Hne Hae Hlen Hf Hseq) in Hk.
Qed.

(** A name of 100 characters in 101 code units: 99 letters and one
    character outside the Basic Multilingual Plane. *)
Lemma create_assigns_fresh_id_witness :
  let env := Scenario.calm Scenario.nothing in
  let n := repeat 97%N 99 ++ [0xD83D%N; 0xDC55%N] in
  let a := lit "Mesh, White, Size 42" in
  let req := create_request n a in
  let w := Scenario.world_of [Scenario.tee] 2 in
  length n = 101%nat
  /\ exists p w',
       create env req w = (Normal (mkResponse 201 (JsonRow (Some p))), w')
       /\ id p = 2
       /\ ~ In (id p) [1]
       /\ name p = n /\ attributes p = Some a
       /\ description p = None
       /\ created_at p = Scenario.epoch
       /\ lookup (id p) (db w') = Some p
       /\ well_formed (db w').
Proof.
  intros env n a req w. split; [reflexivity|].
  refine (@create_assigns_fresh_id env req w n a _ eq_refl _ _ eq_refl _ _ _ eq_refl _).
  - split; simpl.
    + repeat constructor. intros [].
    + repeat constructor.
  - discriminate.
  - split; [reflexivity | apply CharFacts.no_nul; reflexivity].
  - discriminate.
  - split; [reflexivity | apply CharFacts.no_nul; reflexivity].
  - apply Nat.leb_le. reflexivity.
  - vm_compute. intros H. discriminate H.
Defined.

(** C8. On a store that runs the query, the list operation answers 200
    with all the stored records, ordered by id descending, and writes
    nothing.  After three records are created in that order on a store
    that accepts them, the listing starts with the third, the second and
    the first, in that order, followed by the older records. *)
Theorem list_newest_first (env : Env) (req : Request) (w : World) :
  store_fault env (queries w) = None ->
  (exists l,
     list_all env req w = (Normal (mkResponse 200 (JsonRows l)), after_query (db w) w)
     /\ Permutation l (rows (db w))
     /\ StronglySorted by_id_desc l)
  /\ (forall n1 a1 n2 a2 n3 a3,
        well_formed (db w) ->
        acceptable n1 a1 -> acceptable n2 a2 -> acceptable n3 a3 ->
        store_fault env (1 + queries w) = None ->
        store_fault env (2 + queries w) = None ->
        store_fault env (3 + queries w) = None ->
        next_id (db w) + 2 <= INT4_MAX ->
        exists R1 R2 R3 w',
          serve env [(PostProducts, create_request n1 a1);
                     (PostProducts, create_request n2 a2);
                     (PostProducts, create_request n3 a3);
                     (GetProducts, req)] w
          = ([Normal (mkResponse 201 (JsonRow (Some R1)));
              Normal (mkResponse 201 (JsonRow (Some R2)));
              Normal (mkResponse 201 (JsonRow (Some R3)));
              Normal (mkResponse 200
                        (JsonRows (R3 :: R2 :: R1 :: order_by_id_desc (rows (db w)))))],
             w')
          /\ name R1 = n1 /\ name R2 = n2 /\ name R3 = n3
          /\ id R1 < id R2 < id R3).
Proof.
  intros Hf. split.
  - exists (order_by_id_desc (rows (db w))). split; [|split].
    + unfold list_all, try_catch, bind. now rewrite (db_query_exec env _ w Hf).
    + apply StoreFacts.order_by_id_desc_perm.
    + apply StoreFacts.order_by_id_desc_sorted.
  - intros n1 a1 n2 a2 n3 a3 [_ Hlt] H1 H2 H3 Hf1 Hf2 Hf3 Hseq.
    set (next := next_id (db w)) in *.
    set (R1 := mkProduct next n1 (Some a1) None (clock env (queries w))).
    set (R2 := mkProduct (next + 1) n2 (Some a2) None (clock env (S (queries w)))).
    set (R3 := mkProduct (next + 1 + 1) n3 (Some a3) None
                 (clock env (S (S (queries w))))).
    set (w1 := after_query (mkDatabase (rows (db w) ++ [R1]) (next + 1)) w).
    set (w2 := after_query (mkDatabase (rows (db w1) ++ [R2]) (next + 1 + 1)) w1).
    set (w3 := after_query (mkDatabase (rows (db w2) ++ [R3]) (next + 1 + 1 + 1)) w2).
    exists R1, R2, R3, (after_query (db w3) w3).
    split; [|repeat split; simpl; lia].
    cbn [serve handle].
    rewrite (@create_ok env (create_request n1 a1) w n1 a1 eq_refl eq_refl H1 Hf);
      [|fold next; lia].
    fold next R1 w1.
    rewrite (@create_ok env (create_request n2 a2) w1 n2 a2 eq_refl eq_refl H2 Hf1);
      [|cbn; lia].
    change (next_id (db w1)) with (next + 1). change (queries w1) with (S (queries w)).
    fold R2 w2.
    rewrite (@create_ok env (create_request n3 a3) w2 n3 a3 eq_refl eq_refl H3 Hf2);
      [|cbn; lia].
    change (next_id (db w2)) with (next + 1 + 1).
    change (queries w2) with (S (S (queries w))).
    fold R3 w3.
    unfold list_all, try_catch, bind.
    rewrite (db_query_exec env SelectAll w3 Hf3). cbn [exec fst snd ret].
    fold (after_query (db w3) w3).
    assert (Hrows : order_by_id_desc (rows (db w3))
                    = R3 :: R2 :: R1 :: order_by_id_desc (rows (db w))).
    { change (rows (db w3)) with (((rows (db w) ++ [R1]) ++ [R2]) ++ [R3]).
      assert (Hlt1 : Forall (fun q => id q < id R1) (rows (db w))) by exact Hlt.
      assert (Hlt2 : Forall (fun q => id q < id R2) (rows (db w) ++ [R1])).
      { apply Forall_app. split.
        - eapply Forall_impl; [|exact Hlt]. simpl. intros q Hq. fold next in Hq. lia.
        - repeat constructor. simpl. lia. }
      assert (Hlt3 : Forall (fun q => id q < id R3) ((rows (db w) ++ [R1]) ++ [R2])).
      { apply Forall_app. split.
        - eapply Forall_impl; [|exact Hlt2]. simpl. intros q Hq. lia.
        - repeat constructor. simpl. lia. }
      rewrite (@StoreFacts.order_by_id_desc_newest _ R3 Hlt3).
      rewrite (@StoreFacts.order_by_id_desc_newest _ R2 Hlt2).
      now rewrite (@StoreFacts.order_by_id_desc_newest _ R1 Hlt1). }
    rewrite Hrows. reflexivity.
Qed.

Lemma list_newest_first_witness :
  let env := Scenario.calm Scenario.nothing in
  exists R1 R2 R3 w',
    serve env [(PostProducts, create_request (lit "R1") (lit "a"));
               (PostProducts, create_request (lit "R2") (lit "b"));
               (PostProducts, create_request (lit "R3") (lit "c"));
               (GetProducts, id_request [])]
          (Scenario.world_of [Scenario.tee] 2)
    = ([Normal (mkResponse 201 (JsonRow (Some R1)));
        Normal (mkResponse 201 (JsonRow (Some R2)));
        Normal (mkResponse 201 (JsonRow (Some R3)));
        Normal (mkResponse 200 (JsonRows (R3 :: R2 :: R1 :: [Scenario.tee])))],
       w')
    /\ name R1 = lit "R1" /\ name R2 = lit "R2" /\ name R3 = lit "R3"
    /\ id R1 < id R2 < id R3.
Proof.
  intros env.
  refine (proj2 (@list_newest_first env (id_request [])
                   (Scenario.world_of [Scenario.tee] 2) eq_refl)
            (lit "R1") (lit "a") (lit "R2") (lit "b") (lit "R3") (lit "c")
            _ _ _ _ eq_refl eq_refl eq_refl _).
  - split; simpl.
    + repeat constructor. intros [].
    + repeat constructor.
  - repeat split; try discriminate. unfold NAME_MAX. simpl. lia.
  - repeat split; try discriminate. unfold NAME_MAX. simpl. lia.
  - repeat split; try discriminate. unfold NAME_MAX. simpl. lia.
  - vm_compute. intros H. discriminate H.
Defined.

(** The get handler on an id that is not in the table. *)
Lemma get_absent (env : Env) (req : Request) (w : World) (i : Z) :
  int4_in env (params_id req) = inr i ->
  store_fault env (queries w) = None ->
  lookup i (db w) = None ->
  get env req w
  = (Normal (mkResponse 404 (JsonError (lit "Product not found"))),
     after_query (db w) w).
Proof.
  intros Hi Hf Hr. unfold get, try_catch, bind.
  rewrite (select_ok env _ w Hi Hf).
  now rewrite (StoreFacts.find_none_filter _ _ Hr).
Qed.

(** C9, as stated, fails: an id that is not in the store but does not fit
    the 32-bit id column is not answered 404; the database refuses to read
    it and the delete handler answers 500. *)
Lemma delete_wide_id_is_server_error :
  let env := Scenario.calm Scenario.nothing in
  let w := Scenario.world_of [Scenario.tee] 2 in
  let answer := delete env (id_request (lit "2147483648")) w in
  lookup 2147483648 (db w) = None
  /\ fst answer = Normal (mkResponse 500 (Text (lit "Server Error")))
  /\ rows (db (snd answer)) = [Scenario.tee].
Proof. intros env w answer. repeat split. Qed.

(** C9, amended. On a store that runs the statements: for a product id
    present in the store, delete answers 200 with a confirmation message,
    not the record, and removes the record, so that a get on the same id
    then answers 404 with the not-found error, and the records of the
    other ids are untouched; for an id that the database reads as an
    integer and that is not present in the store, delete answers 404 with
    the not-found error, not a 200. *)
Theorem delete_then_get_not_found (env : Env) (req : Request) (w : World) (i : Z) :
  int4_in env (params_id req) = inr i ->
  store_fault env (queries w) = None ->
  (forall r, lookup i (db w) = Some r ->
     exists w',
       delete env req w
       = (Normal (mkResponse 200 (JsonMessage (lit "Product successfully deleted"))), w')
       /\ lookup i (db w') = None
       /\ (forall j, j <> i -> lookup j (db w') = lookup j (db w))
       /\ (store_fault env (queries w') = None ->
           fst (get env req w')
           = Normal (mkResponse 404 (JsonError (lit "Product not found")))))
  /\ (lookup i (db w) = None ->
      delete env req w
      = (Normal (mkResponse 404 (JsonError (lit "Product not found"))),
         after_query (db w) w)).
Proof.
  intros Hi Hf. split.
  - intros r Hr. destruct (StoreFacts.find_filter _ _ Hr) as (rest & Hrows).
    eexists. unfold delete, try_catch, bind.
    rewrite (delete_ok env _ w Hi Hf), Hrows.
    split; [reflexivity|].
    assert (Hgone : lookup i (db (after_query
              (mkDatabase (filter (fun p => negb (has_id i p)) (rows (db w)))
                          (next_id (db w))) w)) = None)
      by apply StoreFacts.find_deleted.
    split; [exact Hgone|]. split.
    + intros j Hj. unfold lookup, after_query. cbn [db rows].
      now apply StoreFacts.find_deleted_other.
    + intros Hf'. now rewrite (get_absent env req _ Hi Hf' Hgone).
  - intros Hr. unfold delete, try_catch, bind.
    rewrite (delete_ok env _ w Hi Hf).
    rewrite (StoreFacts.find_none_filter _ _ Hr).
    rewrite (StoreFacts.filter_absent _ _ Hr).
    now destruct (db w).
Qed.

Lemma delete_then_get_not_found_witness :
  let env := Scenario.calm Scenario.nothing in
  let req := id_request (lit "1") in
  let w := Scenario.world_of [Scenario.tee] 2 in
  exists w',
    delete env req w
    = (Normal (mkResponse 200 (JsonMessage (lit "Product successfully deleted"))), w')
    /\ lookup 1 (db w') = None
    /\ (forall j, j <> 1 -> lookup j (db w') = lookup j (db w))
    /\ (store_fault env (queries w') = None ->
        fst (get env req w')
        = Normal (mkResponse 404 (JsonError (lit "Product not found")))).
Proof.
  intros env req w.
  exact (proj1 (@delete_then_get_not_found env req w 1 eq_refl eq_refl)
           Scenario.tee eq_refl).
Defined.

(* ================================================================== *)
(** ** Further properties of the handlers *)

Module HandlerFacts.

Lemma filter_appended_fresh (i : Z) (l : list Product) (p : Product) :
  Forall (fun q => id q < i) l -> id p = i ->
  filter (has_id i) (l ++ [p]) = [p].
Proof.
  intros Hl Hp. rewrite filter_app. simpl. unfold has_id at 2.
  rewrite Hp, Z.eqb_refl.
  rewrite (StoreFacts.find_none_filter _ _ (StoreFacts.find_fresh Hl)).
  reflexivity.
Qed.

Lemma set_description_twice (d : option jsstring) (p : Product) :
  set_description d (set_description d p) = set_description d p.
Proof. reflexivity. Qed.

Lemma updated_twice (d : option jsstring) (i : Z) (p : Product) :
  updated d i (updated d i p) = updated d i p.
Proof.
  unfold updated at 1. rewrite StoreFacts.has_id_updated.
  unfold updated. destruct (has_id i p); reflexivity.
Qed.

Lemma database_eta (d : Database) : mkDatabase (rows d) (next_id d) = d.
Proof. now destruct d. Qed.

End HandlerFacts.

(** X1. For a path parameter the database reads as an integer, on a store
    that runs the query, get-by-id answers 200 with the stored record of
    that id, and 404 with the error 'Product not found' when there is
    none; in both cases the table is left as it was. *)
Theorem get_returns_stored (env : Env) (req : Request) (w : World) (i : Z) :
  int4_in env (params_id req) = inr i ->
  store_fault env (queries w) = None ->
  (forall r, lookup i (db w) = Some r ->
     get env req w
     = (Normal (mkResponse 200 (JsonRow (Some r))), after_query (db w) w))
  /\ (lookup i (db w) = None ->
      get env req w
      = (Normal (mkResponse 404 (JsonError (lit "Product not found"))),
         after_query (db w) w)).
Proof.
  intros Hi Hf. split.
  - intros r Hr. destruct (StoreFacts.find_filter _ _ Hr) as (rest & Hrows).
    unfold get, try_catch, bind. now rewrite (select_ok env _ w Hi Hf), Hrows.
  - intros Hr. unfold get, try_catch, bind.
    rewrite (select_ok env _ w Hi Hf).
    now rewrite (StoreFacts.find_none_filter _ _ Hr).
Qed.

Lemma get_returns_stored_witness :
  let env := Scenario.calm Scenario.nothing in
  let w := Scenario.world_of [Scenario.described_tee] 2 in
  get env (id_request (lit "1")) w
  = (Normal (mkResponse 200 (JsonRow (Some Scenario.described_tee))),
     after_query (db w) w)
  /\ get env (id_request (lit "7")) w
     = (Normal (mkResponse 404 (JsonError (lit "Product not found"))),
        after_query (db w) w).
Proof.
  intros env w. split.
  - exact (proj1 (@get_returns_stored env (id_request (lit "1")) w 1 eq_refl eq_refl)
             Scenario.described_tee eq_refl).
  - exact (proj2 (@get_returns_stored env (id_request (lit "7")) w 7 eq_refl eq_refl)
             eq_refl).
Defined.

(** X2. Round trip of create and get: on a well-formed table and a store
    that runs both statements, the record a successful create returns is
    exactly the record a get on its id returns next. *)
Theorem create_then_get (env : Env) (req : Request) (w : World)
    (n a param : jsstring) :
  well_formed (db w) ->
  body_name req = Str n -> body_attributes req = Str a ->
  acceptable n a ->
  next_id (db w) <= INT4_MAX ->
  store_fault env (queries w) = None ->
  store_fault env (S (queries w)) = None ->
  int4_in env param = inr (next_id (db w)) ->
  exists p w1,
    create env req w = (Normal (mkResponse 201 (JsonRow (Some p))), w1)
    /\ get env (id_request param) w1
       = (Normal (mkResponse 200 (JsonRow (Some p))), after_query (db w1) w1).
Proof.
  intros [_ Hlt] Hn Ha Hacc Hseq Hf Hf1 Hi.
  set (p := mkProduct (next_id (db w)) n (Some a) None (clock env (queries w))).
  set (w1 := after_query (mkDatabase (rows (db w) ++ [p]) (next_id (db w) + 1)) w).
  exists p, w1. split; [exact (create_ok env req w Hn Ha Hacc Hf Hseq)|].
  unfold get, try_catch, bind. cbn [params_id id_request].
  rewrite (select_ok env _ w1 Hi Hf1).
  change (rows (db w1)) with (rows (db w) ++ [p]).
  now rewrite (HandlerFacts.filter_appended_fresh p Hlt eq_refl).
Qed.

Lemma create_then_get_witness :
  let env := Scenario.calm Scenario.nothing in
  let w := Scenario.world_of [Scenario.tee] 2 in
  exists p w1,
    create env (create_request (lit "Nike Air Max") (lit "Mesh, White")) w
    = (Normal (mkResponse 201 (JsonRow (Some p))), w1)
    /\ get env (id_request (lit "2")) w1
       = (Normal (mkResponse 200 (JsonRow (Some p))), after_query (db w1) w1).
Proof.
  intros env w.
  refine (@create_then_get env (create_request (lit "Nike Air Max") (lit "Mesh, White"))
            w (lit "Nike Air Max") (lit "Mesh, White") (lit "2")
            _ eq_refl eq_refl _ _ eq_refl eq_refl eq_refl).
  - split; simpl.
    + repeat constructor. intros [].
    + repeat constructor.
  - repeat split; try discriminate. unfold NAME_MAX. simpl. lia.
  - vm_compute. intros H. discriminate H.
Defined.



(** X4. Update is idempotent: on a store that runs both statements, the
    same update sent twice gets the same answer twice, and the second
    leaves the table as the first left it (for a present id and for an
    absent one). *)
Theorem update_twice (env : Env) (req : Request) (w : World) (i : Z) :
  int4_in env (params_id req) = inr i ->
  store_fault env (queries w) = None ->
  store_fault env (S (queries w)) = None ->
  fst (update env req (snd (update env req w))) = fst (update env req w)
  /\ db (snd (update env req (snd (update env req w))))
     = db (snd (update env req w)).
Proof.
  intros Hi Hf Hf1.
  set (d := prepareValue (body_description req)).
  assert (H1 : update env req w
               = (match map (set_description d) (filter (has_id i) (rows (db w))) with
                  | [] => Normal not_found
                  | row :: _ => Normal (mkResponse 200 (JsonRow (Some row)))
                  end,
                  after_query (mkDatabase (map (updated d i) (rows (db w)))
                                          (next_id (db w))) w)).
  { unfold update, try_catch, bind. rewrite (update_ok env _ _ w Hi Hf).
    fold d. now destruct (map (set_description d) (filter (has_id i) (rows (db w)))). }
  rewrite H1. cbn [fst snd].
  set (w1 := after_query _ w).
  assert (H2 : update env req w1
               = (match map (set_description d) (filter (has_id i) (rows (db w1))) with
                  | [] => Normal not_found
                  | row :: _ => Normal (mkResponse 200 (JsonRow (Some row)))
                  end,
                  after_query (mkDatabase (map (updated d i) (rows (db w1)))
                                          (next_id (db w1))) w1)).
  { unfold update, try_catch, bind. rewrite (update_ok env _ _ w1 Hi Hf1).
    fold d. now destruct (map (set_description d) (filter (has_id i) (rows (db w1)))). }
  rewrite H2. cbn [fst snd]. subst w1. unfold after_query. cbn [db rows next_id].
  split.
  - rewrite StoreFacts.filter_updated, map_map.
    now rewrite (map_ext _ _ (HandlerFacts.set_description_twice d)).
  - f_equal. rewrite map_map. apply map_ext. apply HandlerFacts.updated_twice.
Qed.

Lemma update_twice_witness :
  let env := Scenario.calm Scenario.nothing in
  let req := description_request (lit "1") (Str (lit "Heavy cotton tee.")) in
  let w := Scenario.world_of [Scenario.described_tee] 2 in
  fst (update env req (snd (update env req w))) = fst (update env req w)
  /\ db (snd (update env req (snd (update env req w))))
     = db (snd (update env req w)).
Proof.
  intros env req w.
  exact (@update_twice env req w 1 eq_refl eq_refl eq_refl).
Defined.

(** X5. Delete is idempotent in its effect but not in its answer: for a
    path parameter the database reads as an integer, on a store that runs
    both statements, a second delete of the id just deleted answers 404
    with the error 'Product not found' and leaves the table as the first
    left it. *)
Theorem delete_twice (env : Env) (req : Request) (w : World) (i : Z)
    (r : Product) :
  int4_in env (params_id req) = inr i ->
  store_fault env (queries w) = None ->
  store_fault env (S (queries w)) = None ->
  lookup i (db w) = Some r ->
  exists w1,
    delete env req w
    = (Normal (mkResponse 200 (JsonMessage (lit "Product successfully deleted"))), w1)
    /\ delete env req w1
       = (Normal (mkResponse 404 (JsonError (lit "Product not found"))),
          after_query (db w1) w1).
Proof.
  intros Hi Hf Hf1 Hr.
  destruct (StoreFacts.find_filter _ _ Hr) as (rest & Hrows).
  eexists. unfold delete at 1, try_catch, bind.
  rewrite (delete_ok env _ w Hi Hf), Hrows. split; [reflexivity|].
  set (w1 := after_query _ w).
  assert (Hgone : lookup i (db w1) = None) by apply StoreFacts.find_deleted.
  unfold delete, try_catch, bind.
  rewrite (delete_ok env _ w1 Hi Hf1).
  rewrite (StoreFacts.find_none_filter _ _ Hgone).
  rewrite (StoreFacts.filter_absent _ _ Hgone).
  now rewrite HandlerFacts.database_eta.
Qed.

Lemma delete_twice_witness :
  let env := Scenario.calm Scenario.nothing in
  let req := id_request (lit "1") in
  let w := Scenario.world_of [Scenario.tee] 2 in
  exists w1,
    delete env req w
    = (Normal (mkResponse 200 (JsonMessage (lit "Product successfully deleted"))), w1)
    /\ delete env req w1
       = (Normal (mkResponse 404 (JsonError (lit "Product not found"))),
          after_query (db w1) w1).
Proof.
  intros env req w.
  exact (@delete_twice env req w 1 Scenario.tee eq_refl eq_refl eq_refl eq_refl).
Defined.

(** X6. The handlers do not check the path parameter: when the database
    cannot read it as an integer, get, update and delete answer the
    generic 500 (not 404), the generate-description handler answers 500
    with the database's message, and the table is left as it was. *)
Theorem unreadable_id_is_server_error (env : Env) (req : Request) (w : World)
    (e : error) :
  int4_in env (params_id req) = inl e ->
  store_fault env (queries w) = None ->
  (forall r, In r [GetProduct; PutProduct; DeleteProduct] ->
     handle env r req w
     = (Normal generic_500,
        logged (ConsoleError [message e]) (after_query (db w) w)))
  /\ handle env PostGenerateDescription req w
     = (Normal (mkResponse 500
          (JsonError (or_else (message e)
                        (lit "Server Error: Failed to generate description")))),
        logged (ConsoleError
                  [lit "[API] Error generating description: " ++ message e])
               (after_query (db w) w)).
Proof.
  intros Hi Hf. split.
  - intros r [<-|[<-|[<-|[]]]]; cbn [handle];
      unfold get, update, delete, try_catch, bind;
      rewrite (db_query_exec env _ w Hf); cbn [exec]; rewrite Hi; reflexivity.
  - cbn [handle]. unfold generate_description, try_catch, bind.
    rewrite (db_query_exec env _ w Hf). cbn [exec]. rewrite Hi. reflexivity.
Qed.

Lemma unreadable_id_is_server_error_witness :
  let env := Scenario.calm Scenario.nothing in
  let w := Scenario.world_of [Scenario.tee] 2 in
  handle env GetProduct (id_request (lit "abc")) w
  = (Normal generic_500,
     logged (ConsoleError [message (Scenario.invalid_integer (lit "abc"))])
            (after_query (db w) w)).
Proof.
  intros env w.
  exact (proj1 (@unreadable_id_is_server_error env (id_request (lit "abc")) w
                  (Scenario.invalid_integer (lit "abc")) eq_refl eq_refl)
           GetProduct (or_introl eq_refl)).
Defined.

(* ================================================================== *)
(** ** Properties of the world that the handlers maintain *)

Module MaintainsFacts.

Import WorldFacts.

Lemma ret_maintains (P : World -> Prop) {A} (a : A) : maintains P (ret a).
Proof. intros w Hw. exact Hw. Qed.

Lemma throw_maintains (P : World -> Prop) {A} (e : error) :
  maintains P (@throw A e).
Proof. intros w Hw. exact Hw. Qed.

Lemma bind_maintains (P : World -> Prop) {A B} (m : M A) (k : A -> M B) :
  maintains P m -> (forall a, maintains P (k a)) -> maintains P (bind m k).
Proof.
  intros Hm Hk w Hw. unfold bind. specialize (Hm w Hw).
  destruct (m w) as [[a|e] w']; [now apply Hk | exact Hm].
Qed.

Lemma try_catch_maintains (P : World -> Prop) {A} (m : M A) (h : error -> M A) :
  maintains P m -> (forall e, maintains P (h e)) -> maintains P (try_catch m h).
Proof.
  intros Hm Hh w Hw. unfold try_catch. specialize (Hm w Hw).
  destruct (m w) as [[a|e] w']; [exact Hm | now apply Hh].
Qed.

Lemma console_log_table (P : Database -> Prop) (t : jsstring) :
  maintains (of_table P) (console_log t).
Proof. intros w Hw. exact Hw. Qed.

Lemma console_error_table (P : Database -> Prop) (a : list jsstring) :
  maintains (of_table P) (console_error a).
Proof. intros w Hw. exact Hw. Qed.

Lemma run_table (P : Database -> Prop) (env : Env) (c : Replicate.Call) :
  maintains (of_table P) (run env c).
Proof.
  intros w Hw. unfold run.
  destruct (replicate_run env (length (remote_calls w)) c); exact Hw.
Qed.

Lemma join_table (P : Database -> Prop) (o : Replicate.Output) :
  maintains (of_table P) (AiService.join o).
Proof. intros w Hw. destruct o; exact Hw. Qed.

(** A query maintains what its statement preserves. *)
Lemma db_query_table (P : Database -> Prop) (env : Env) (q : Statement) :
  (forall now d, P d -> P (snd (exec (int4_in env) now q d))) ->
  maintains (of_table P) (db_query env q).
Proof.
  intros Hq w Hw. unfold db_query.
  destruct (store_fault env (queries w)); [exact Hw|].
  specialize (Hq (clock env (queries w)) (db w) Hw).
  destruct (exec (int4_in env) (clock env (queries w)) q (db w)) as [[e|rs] d];
    exact Hq.
Qed.

Lemma generateDescription_table (P : Database -> Prop) (env : Env) (n a : value) :
  maintains (of_table P) (AiService.generateDescription env n a).
Proof.
  unfold AiService.generateDescription.
  repeat first
    [ apply bind_maintains; [|intros ?]
    | apply try_catch_maintains; [|intros ?]
    | apply console_log_table | apply console_error_table
    | apply run_table | apply join_table
    | apply ret_maintains | apply throw_maintains
    | match goal with
      | |- context [match ?x with _ => _ end] => destruct x
      end ].
Qed.

(** The sequence never goes back. *)
Lemma exec_sequence (k : Z) (int4 : jsstring -> error + Z) (now : Z)
    (q : Statement) (d : Database) :
  sequence_from k d -> sequence_from k (snd (exec int4 now q d)).
Proof.
  unfold sequence_from. intros H. destruct q as [n a| |p|ds p|p]; cbn [exec].
  - destruct n as [n|].
    + destruct (varchar NAME_MAX n); [|exact H].
      destruct (INT4_MAX <? next_id d); [exact H|]. cbn [snd next_id]. lia.
    + destruct (INT4_MAX <? next_id d); [exact H|]. cbn [snd next_id]. lia.
  - exact H.
  - destruct (int4 p); exact H.
  - destruct (int4 p); exact H.
  - destruct (int4 p); exact H.
Qed.

Lemma varchar_valid (n n' : jsstring) :
  n <> [] -> varchar NAME_MAX n = Some n' ->
  n' <> [] /\ (char_length n' <= NAME_MAX)%nat.
Proof. apply CharFacts.varchar_stored. Qed.

(** What the driver sends for a truthy value is text that is not empty. *)
Lemma truthy_sent (v : value) :
  truthy v = true -> exists s, prepareValue v = Some s /\ s <> [].
Proof.
  destruct v as [| |[|c s]|t shown c r]; try discriminate;
    intros _; eexists; (split; [reflexivity | discriminate]).
Qed.

Lemma record_valid_updated (d : option jsstring) (i : Z) (p : Product) :
  record_valid p -> record_valid (updated d i p).
Proof. unfold updated. now destruct (has_id i p). Qed.

(** The statements that keep the records valid: all of them, an [INSERT]
    when its name and attributes are text that is not empty. *)
Lemma exec_records_valid (int4 : jsstring -> error + Z) (now : Z)
    (q : Statement) (d : Database) :
  match q with
  | InsertProduct n a =>
      (exists s, n = Some s /\ s <> []) /\ (exists s, a = Some s /\ s <> [])
  | _ => True
  end ->
  records_valid d -> records_valid (snd (exec int4 now q d)).
Proof.
  unfold records_valid. intros Hq H. destruct q as [n a| |p|ds p|p]; cbn [exec].
  - destruct Hq as [(s & -> & Hs) (t & -> & Ht)].
    destruct (varchar NAME_MAX s) as [s'|] eqn:E; [|exact H].
    destruct (INT4_MAX <? next_id d); [exact H|].
    cbn [snd rows]. apply Forall_app. split; [exact H|].
    apply Forall_cons; [|constructor].
    destruct (varchar_valid Hs E) as [H1 H2].
    split; [exact H1|]. split; [exact H2|]. exists t. now split.
  - exact H.
  - destruct (int4 p); exact H.
  - destruct (int4 p); [exact H|]. simpl. apply Forall_map.
    eapply Forall_impl; [|exact H]. intros x. apply record_valid_updated.
  - destruct (int4 p); [exact H|]. simpl. apply Forall_forall.
    intros x Hx. apply filter_In in Hx. rewrite Forall_forall in H.
    now apply H.
Qed.

(** Closes a goal [maintains (of_table P) m] by following the structure of
    [m], given a tactic for the queries. *)
Ltac maintained query :=
  repeat first
    [ apply generateDescription_table
    | apply bind_maintains; [|intros ?]
    | apply try_catch_maintains; [|intros ?]
    | apply console_log_table | apply console_error_table
    | apply ret_maintains | apply throw_maintains
    | apply db_query_table; intros ? ?; query
    | match goal with
      | |- context [match ?x with _ => _ end] => destruct x eqn:?
      end ].

Lemma handle_sequence (k : Z) (env : Env) (r : Route) (req : Request) :
  maintains (of_table (sequence_from k)) (handle env r req).
Proof.
  destruct r; unfold handle, create, list_all, get, update, delete,
    generate_description, server_error;
    maintained ltac:(apply exec_sequence).
Qed.

Lemma serve_sequence (k : Z) (env : Env) (rs : list (Route * Request)) (w : World) :
  sequence_from k (db w) -> sequence_from k (db (snd (serve env rs w))).
Proof.
  revert w. induction rs as [|[r req] rest IH]; intros w Hw; simpl; [exact Hw|].
  pose proof (@handle_sequence k env r req w Hw) as H1.
  destruct (handle env r req w) as [c w1]. specialize (IH w1 H1).
  now destruct (serve env rest w1) as [cs w2].
Qed.

Lemma handle_records_valid (env : Env) (r : Route) (req : Request) :
  maintains (of_table records_valid) (handle env r req).
Proof.
  destruct r; unfold handle, create, list_all, get, update, delete,
    generate_description, server_error.
  2-6: maintained ltac:(apply exec_records_valid; exact I).
  apply try_catch_maintains; [|intros e; maintained idtac].
  destruct (truthy (body_name req)) eqn:En; [|apply ret_maintains].
  destruct (truthy (body_attributes req)) eqn:Ea; [|apply ret_maintains].
  cbn [negb orb].
  destruct (truthy_sent _ En) as (n & Hn & Hne).
  destruct (truthy_sent _ Ea) as (a & Ha & Hae).
  rewrite Hn, Ha.
  apply bind_maintains; [|intros ?; apply ret_maintains].
  apply db_query_table. intros now d. apply exec_records_valid.
  split; eexists; split; try reflexivity; assumption.
Qed.

(** Case analysis on a scrutinee that has no case analysis inside. *)
Ltac case_innermost :=
  match goal with
  | |- context [match ?x with _ => _ end] =>
      lazymatch x with
      | context [match _ with _ => _ end] => fail
      | _ => destruct x eqn:?
      end
  end.

(** The id of the record a create answers with is the value the sequence
    had when the request came in. *)
Lemma create_201_id (env : Env) (req : Request) (w : World) (p : Product)
    (w' : World) :
  create env req w = (Normal (mkResponse 201 (JsonRow (Some p))), w') ->
  id p = next_id (db w).
Proof.
  unfold create, try_catch, bind, server_error, console_error, ret, db_query.
  repeat (cbn [exec bind fst snd hd_error]; case_innermost);
    cbn [hd_error]; intros H; try discriminate H.
  inversion H; subst; reflexivity.
Qed.

End MaintainsFacts.

(* ================================================================== *)
(** ** What a query returns, read backwards *)

Module QueryFacts.

Import WorldFacts AiFacts ServerFacts MaintainsFacts.

(** A query touches neither the remote calls nor the console, and counts
    as one. *)
Lemma db_query_frame (env : Env) (q : Statement) (w : World) :
  remote_calls (snd (db_query env q w)) = remote_calls w
  /\ queries (snd (db_query env q w)) = S (queries w)
  /\ console (snd (db_query env q w)) = console w.
Proof.
  unfold db_query. destruct (store_fault env (queries w)); [now repeat split|].
  destruct (exec (int4_in env) (clock env (queries w)) q (db w)) as [[e|rs] d];
    now repeat split.
Qed.

Lemma select_rows (env : Env) (p : jsstring) (w : World)
    (rs : list Product) (w1 : World) :
  db_query env (SelectById p) w = (Normal rs, w1) ->
  exists i, int4_in env p = inr i
            /\ rs = filter (has_id i) (rows (db w))
            /\ w1 = after_query (db w) w.
Proof.
  unfold db_query. destruct (store_fault env (queries w)); [discriminate|].
  cbn [exec]. destruct (int4_in env p) as [e|i]; [discriminate|].
  intros [= <- <-]. now exists i.
Qed.

Lemma select_throws (env : Env) (p : jsstring) (w : World) (e : error) (w1 : World) :
  db_query env (SelectById p) w = (Throw e, w1) -> w1 = after_query (db w) w.
Proof.
  unfold db_query. destruct (store_fault env (queries w)); [now intros [= _ <-]|].
  cbn [exec]. destruct (int4_in env p) as [e'|i]; [|discriminate].
  now intros [= _ <-].
Qed.

Lemma update_rows (env : Env) (d : option jsstring) (p : jsstring) (w : World)
    (rs : list Product) (w1 : World) :
  db_query env (UpdateDescription d p) w = (Normal rs, w1) ->
  exists i, int4_in env p = inr i
            /\ rs = map (set_description d) (filter (has_id i) (rows (db w)))
            /\ w1 = after_query (mkDatabase (map (updated d i) (rows (db w)))
                                            (next_id (db w))) w.
Proof.
  unfold db_query. destruct (store_fault env (queries w)); [discriminate|].
  cbn [exec]. destruct (int4_in env p) as [e|i]; [discriminate|].
  intros [= <- <-]. exists i. now rewrite StoreFacts.filter_updated.
Qed.

Lemma update_throws (env : Env) (d : option jsstring) (p : jsstring) (w : World)
    (e : error) (w1 : World) :
  db_query env (UpdateDescription d p) w = (Throw e, w1) ->
  w1 = after_query (db w) w.
Proof.
  unfold db_query. destruct (store_fault env (queries w)); [now intros [= _ <-]|].
  cbn [exec]. destruct (int4_in env p) as [e'|i]; [|discriminate].
  now intros [= _ <-].
Qed.

Lemma delete_rows (env : Env) (p : jsstring) (w : World)
    (rs : list Product) (w1 : World) :
  db_query env (DeleteById p) w = (Normal rs, w1) ->
  exists i, int4_in env p = inr i
            /\ rs = filter (has_id i) (rows (db w))
            /\ w1 = after_query
                      (mkDatabase (filter (fun r => negb (has_id i r)) (rows (db w)))
                                  (next_id (db w))) w.
Proof.
  unfold db_query. destruct (store_fault env (queries w)); [discriminate|].
  cbn [exec]. destruct (int4_in env p) as [e|i]; [discriminate|].
  intros [= <- <-]. now exists i.
Qed.

Lemma delete_throws (env : Env) (p : jsstring) (w : World) (e : error) (w1 : World) :
  db_query env (DeleteById p) w = (Throw e, w1) -> w1 = after_query (db w) w.
Proof.
  unfold db_query. destruct (store_fault env (queries w)); [now intros [= _ <-]|].
  cbn [exec]. destruct (int4_in env p) as [e'|i]; [|discriminate].
  now intros [= _ <-].
Qed.

(** A query that throws never changed the rows (the sequence may have
    moved). *)
Lemma throw_keeps_rows (env : Env) (q : Statement) (w : World) (e : error)
    (w1 : World) :
  db_query env q w = (Throw e, w1) -> rows (db w1) = rows (db w).
Proof.
  unfold db_query. destruct (store_fault env (queries w)); [now intros [= _ <-]|].
  destruct q as [n a| |p|d p|p]; cbn [exec].
  - destruct n as [n|].
    + destruct (varchar NAME_MAX n); [|now intros [= _ <-]].
      destruct (INT4_MAX <? next_id (db w)); [now intros [= _ <-] | discriminate].
    + destruct (INT4_MAX <? next_id (db w)); now intros [= _ <-].
  - discriminate.
  - destruct (int4_in env p); [now intros [= _ <-] | discriminate].
  - destruct (int4_in env p); [now intros [= _ <-] | discriminate].
  - destruct (int4_in env p); [now intros [= _ <-] | discriminate].
Qed.

Lemma filter_nil_find (f : Product -> bool) (l : list Product) :
  filter f l = [] -> find f l = None.
Proof.
  induction l as [|q r IH]; simpl; [reflexivity|].
  destruct (f q); [discriminate | exact IH].
Qed.

Lemma or_else_message (s fallback : jsstring) :
  fallback <> [] -> or_else s fallback <> [].
Proof. destruct s; [trivial | discriminate]. Qed.

Lemma trimStart_blank (s : jsstring) : all_white_space s -> trimStart s = [].
Proof.
  unfold all_white_space. induction s as [|c r IH]; simpl; [reflexivity|].
  destruct (is_white_space c); [exact IH | discriminate].
Qed.

(** Text that is white space only trims to the empty string. *)
Lemma trim_blank (s : jsstring) : all_white_space s -> trim s = [].
Proof.
  intros H. unfold trim. now rewrite (trimStart_blank H).
Qed.

(** The generate-description handler when the remote call returns text:
    one remote call, and the trimmed text written to the record. *)
Lemma generate_from_outcome (env : Env) (req : Request) (w : World) (i : Z)
    (product : Product) (fragments : list jsstring) :
  int4_in env (params_id req) = inr i ->
  lookup i (db w) = Some product ->
  store_fault env (queries w) = None ->
  store_fault env (S (queries w)) = None ->
  replicate_run env (length (remote_calls w))
      (call_for (Str (name product)) (column (attributes product)))
    = Replicate.Resolves (Replicate.OutArray fragments) ->
  concat fragments <> [] ->
  let stored := set_description (Some (trim (concat fragments))) product in
  exists w',
    generate_description env req w
    = (Normal (mkResponse 200 (JsonRow (Some stored))), w')
    /\ lookup i (db w') = Some stored
    /\ (forall j, j <> i -> lookup j (db w') = lookup j (db w))
    /\ remote_calls w'
       = call_for (Str (name product)) (column (attributes product))
         :: remote_calls w.
Proof.
  intros Hi Hp Hf Hf1 Ho Hne stored.
  destruct (StoreFacts.find_filter _ _ Hp) as (rest & Hrows).
  set (n := Str (name product)). set (a := column (attributes product)).
  set (w0 := at_generation product w).
  pose proof (generateDescription_read_only env n a w0) as Hdb.
  pose proof (generateDescription_calls env n a w0) as [Hc Hq].
  pose proof (@generateDescription_success env n a w0 fragments Ho Hne) as Hs.
  destruct (AiService.generateDescription env n a w0) as [c w2] eqn:Hg.
  cbn [fst snd] in Hdb, Hc, Hq, Hs. subst c.
  change (db w0) with (db w) in Hdb.
  change (queries w0) with (S (queries w)) in Hq.
  change (remote_calls w0) with (remote_calls w) in Hc.
  rewrite <- Hq in Hf1.
  unfold generate_description, try_catch, bind.
  rewrite (select_ok env _ w Hi Hf), Hrows.
  unfold console_log at 1. cbn [after_query db queries remote_calls console].
  fold (at_generation product w). fold w0 n a. rewrite Hg.
  rewrite (update_ok env _ _ w2 Hi Hf1), Hdb, Hrows. cbn [map hd_error].
  eexists. split; [reflexivity|]. unfold lookup, after_query. cbn [db rows remote_calls].
  split; [|split].
  - rewrite StoreFacts.find_updated. unfold lookup in Hp. now rewrite Hp.
  - intros j Hj. now apply StoreFacts.find_updated_other.
  - exact Hc.
Qed.

End QueryFacts.

Import MaintainsFacts QueryFacts.

(** X7. No handler lets an exception out: every request gets an answer,
    and its status is one of those of its route (201, 400 or 500 for
    create; 200 or 500 for list; 200, 404 or 500 for the others). *)
Theorem handle_always_answers (env : Env) (r : Route) (req : Request) (w : World) :
  exists resp,
    fst (handle env r req w) = Normal resp /\ In (status resp) (statuses r).
Proof.
  destruct r; cbn [handle statuses];
    unfold create, list_all, get, update, delete, generate_description,
      try_catch, bind, server_error, console_error, console_log, ret, not_found;
    repeat case_innermost;
    (eexists; split; [reflexivity | simpl; auto]).
Qed.

(** X10. An id is never given twice: on a well-formed table, whatever
    requests are served in between (deletes included), the id of a record
    created later differs from every id the table held. *)
Theorem ids_never_reused (env : Env) (rs : list (Route * Request)) (w : World)
    (i : Z) (req : Request) (p : Product) (w' : World) :
  well_formed (db w) ->
  In i (map id (rows (db w))) ->
  create env req (snd (serve env rs w))
    = (Normal (mkResponse 201 (JsonRow (Some p))), w') ->
  id p <> i.
Proof.
  intros [_ Hlt] Hin Hc.
  apply in_map_iff in Hin. destruct Hin as (q & <- & Hq).
  rewrite Forall_forall in Hlt. specialize (Hlt q Hq).
  assert (Hk : sequence_from (id q + 1) (db w)) by (unfold sequence_from; lia).
  apply (serve_sequence env rs) in Hk. unfold sequence_from in Hk.
  rewrite (create_201_id _ _ _ Hc). lia.
Qed.

Lemma ids_never_reused_witness :
  let env := Scenario.calm Scenario.nothing in
  let w := Scenario.world_of [Scenario.tee] 2 in
  let after := snd (serve env [(DeleteProduct, id_request (lit "1"))] w) in
  rows (db after) = []
  /\ id (mkProduct 2 (lit "Stussy 8-Ball Tee") (Some (lit "Cotton")) None
           (Scenario.epoch + 1)) <> 1.
Proof.
  intros env w after. split; [reflexivity|].
  exact (@ids_never_reused env [(DeleteProduct, id_request (lit "1"))] w 1
           (create_request (lit "Stussy 8-Ball Tee") (lit "Cotton")) _ _
           (conj (NoDup_cons 1 (fun H : In 1 [] => H) (NoDup_nil Z))
                 (Forall_cons Scenario.tee (eq_refl : (1 ?= 2) = Lt) (Forall_nil _)))
           (or_introl eq_refl) eq_refl).
Defined.

(** X11. In every world the server reaches from its start, whatever the
    requests and whatever the store and the remote service do, each stored
    record has a name that is not empty and of at most 100 characters and
    attributes that are text and not empty, the ids are distinct and below
    the sequence, and the sequence is at least 1. *)
Theorem reachable_records_valid (env : Env) (w : World) :
  reachable env w ->
  Forall record_valid (rows (db w))
  /\ well_formed (db w)
  /\ 1 <= next_id (db w).
Proof.
  intros H. split; [|split].
  - induction H as [|r req w _ IH]; [constructor|].
    now apply handle_records_valid.
  - now apply ServerFacts.reachable_well_formed with env.
  - induction H as [|r req w _ IH]; [simpl; lia|].
    now apply (@handle_sequence 1).
Qed.

Lemma reachable_records_valid_witness :
  let env := Scenario.calm Scenario.great_shirt in
  let w := snd (handle env PostGenerateDescription (id_request (lit "1"))
             (snd (handle env PostProducts
                     (create_request (lit "Stussy 8-Ball Tee") (lit "Cotton"))
                     initial_world))) in
  Forall record_valid (rows (db w)) /\ well_formed (db w) /\ 1 <= next_id (db w).
Proof.
  intros env w.
  exact (@reachable_records_valid env w
           (reachable_step _ _ (reachable_step _ _ (reachable_start env)))).
Defined.

(** X13. For a path parameter the database reads as an integer that is
    the id of no record of the table, on a store that runs the query, the
    generate-description handler answers 404 with the error 'Product not
    found' after its [SELECT] alone: the remote service is not called and
    nothing is written. *)
Theorem generate_absent_not_found (env : Env) (req : Request) (w : World) (i : Z) :
  int4_in env (params_id req) = inr i ->
  store_fault env (queries w) = None ->
  lookup i (db w) = None ->
  generate_description env req w
  = (Normal (mkResponse 404 (JsonError (lit "Product not found"))),
     after_query (db w) w).
Proof.
  intros Hi Hf Hr. unfold generate_description, try_catch, bind.
  rewrite (ServerFacts.select_ok env _ w Hi Hf).
  now rewrite (StoreFacts.find_none_filter _ _ Hr).
Qed.

Lemma generate_absent_not_found_witness :
  let env := Scenario.calm Scenario.great_shirt in
  let w := Scenario.world_of [Scenario.tee] 2 in
  generate_description env (id_request (lit "7")) w
  = (Normal (mkResponse 404 (JsonError (lit "Product not found"))),
     after_query (db w) w)
  /\ remote_calls (after_query (db w) w) = [].
Proof.
  intros env w. split; [|reflexivity].
  exact (@generate_absent_not_found env (id_request (lit "7")) w 7
           eq_refl eq_refl eq_refl).
Defined.

(** The shapes of the answer of the generate-description handler. *)
Lemma generate_shape (env : Env) (req : Request) (w : World) :
  exists resp,
    fst (generate_description env req w) = Normal resp
    /\ ((status resp = 200
         /\ exists r text, payload resp = JsonRow (Some r)
                           /\ description r = Some text)
        \/ resp = not_found
        \/ (status resp = 500
            /\ exists m, payload resp = JsonError m /\ m <> [])).
Proof.
  assert (Hfb : lit "Server Error: Failed to generate description" <> [])
    by discriminate.
  unfold generate_description, try_catch, bind.
  destruct (db_query env (SelectById (params_id req)) w) as [[rs|e] w1] eqn:Es.
  2:{ eexists. split; [reflexivity|]. right. right. split; [reflexivity|].
      eexists. split; [reflexivity|]. now apply or_else_message. }
  destruct rs as [|product rest].
  { eexists. split; [reflexivity|]. right. now left. }
  destruct (select_rows _ _ _ Es) as (i & Hi & Hrows & ->).
  unfold console_log at 1. cbn [after_query db queries remote_calls console].
  fold (at_generation product w).
  pose proof (AiFacts.generateDescription_read_only env (Str (name product))
                (column (attributes product)) (at_generation product w)) as Hdb.
  destruct (AiService.generateDescription env (Str (name product))
              (column (attributes product)) (at_generation product w))
    as [[text|e] w2] eqn:Eg.
  2:{ eexists. split; [reflexivity|]. right. right. split; [reflexivity|].
      eexists. split; [reflexivity|]. now apply or_else_message. }
  cbn [snd at_generation db] in Hdb.
  destruct (db_query env (UpdateDescription (Some text) (params_id req)) w2)
    as [[rs|e] w3] eqn:Eu.
  2:{ eexists. split; [reflexivity|]. right. right. split; [reflexivity|].
      eexists. split; [reflexivity|]. now apply or_else_message. }
  destruct (update_rows _ _ _ _ Eu) as (j & Hj & -> & _).
  assert (j = i) by congruence. subst j.
  rewrite Hdb, <- Hrows. cbn [map hd_error].
  eexists. split; [reflexivity|]. left. split; [reflexivity|].
  now exists (set_description (Some text) product), text.
Qed.

(** With nothing served meanwhile the handler is the one served alone. *)
Lemma generate_description_alone (env : Env) (req : Request) (w : World) :
  Interleaved.generate_description env Interleaved.alone req w
  = generate_description env req w.
Proof. reflexivity. Qed.

(** The shapes of the answer of the generate-description handler, whatever
    is served while it awaits the remote call. *)
Lemma generate_shape_during (env : Env) (meanwhile : World -> World)
    (req : Request) (w : World) :
  exists resp,
    fst (Interleaved.generate_description env meanwhile req w) = Normal resp
    /\ ((status resp = 200
         /\ exists r text, payload resp = JsonRow (Some r)
                           /\ description r = Some text)
        \/ resp = mkResponse 200 (JsonRow None)
        \/ resp = mkResponse 404 (JsonError (lit "Product not found"))
        \/ (status resp = 500
            /\ exists m, payload resp = JsonError m /\ m <> [])).
Proof.
  assert (Hfb : lit "Server Error: Failed to generate description" <> [])
    by discriminate.
  assert (H500 : forall (e : error) (w0 : World),
            exists resp,
              fst (Normal (mkResponse 500
                     (JsonError (or_else (message e)
                        (lit "Server Error: Failed to generate description")))),
                   w0) = Normal resp
              /\ ((status resp = 200
                   /\ exists r text, payload resp = JsonRow (Some r)
                                     /\ description r = Some text)
                  \/ resp = mkResponse 200 (JsonRow None)
                  \/ resp = mkResponse 404 (JsonError (lit "Product not found"))
                  \/ (status resp = 500
                      /\ exists m, payload resp = JsonError m /\ m <> []))).
  { intros e w0. eexists. split; [reflexivity|]. right. right. right.
    split; [reflexivity|]. eexists. split; [reflexivity|].
    now apply or_else_message. }
  unfold Interleaved.generate_description, try_catch, bind, console_error, ret.
  destruct (db_query env (SelectById (params_id req)) w) as [[rs|e] w1];
    [|apply H500].
  destruct rs as [|product rest].
  { eexists. split; [reflexivity|]. right. right. now left. }
  destruct (console_log
              (lit "[API] Calling AI Service for product: " ++ name product) w1)
    as [[u|e] wl]; [|apply H500].
  destruct (Interleaved.generateDescription env meanwhile (Str (name product))
              (column (attributes product)) wl) as [[text|e] w2]; [|apply H500].
  destruct (db_query env (UpdateDescription (Some text) (params_id req)) w2)
    as [[rs|e] w3] eqn:Eu; [|apply H500].
  destruct (update_rows _ _ _ _ Eu) as (j & _ & -> & _).
  destruct (filter (has_id j) (rows (db w2))) as [|r others]; cbn [map hd_error].
  - eexists. split; [reflexivity|]. right. now left.
  - eexists. split; [reflexivity|]. left. split; [reflexivity|].
    now exists (set_description (Some text) r), text.
Qed.

(** X8. The shapes of the answer of the generate-description handler.
    Whatever the server does for other requests while the handler awaits
    the remote call, its answer is 200 with a record whose description is
    text, 200 with an empty body (the [UPDATE] found no row any more), 404
    with the not-found error, or 500 with a JSON error whose message is
    not empty.  Served alone, it never answers with an empty body.  A
    delete of the product served meanwhile gives the 200 with an empty
    body. *)
Theorem generate_answer_shape (env : Env) (meanwhile : World -> World)
    (req : Request) (w : World) :
  (exists resp,
     fst (Interleaved.generate_description env meanwhile req w) = Normal resp
     /\ ((status resp = 200
          /\ exists r text, payload resp = JsonRow (Some r)
                            /\ description r = Some text)
         \/ resp = mkResponse 200 (JsonRow None)
         \/ resp = mkResponse 404 (JsonError (lit "Product not found"))
         \/ (status resp = 500
             /\ exists m, payload resp = JsonError m /\ m <> [])))
  /\ (exists resp,
        fst (generate_description env req w) = Normal resp
        /\ ((status resp = 200
             /\ exists r text, payload resp = JsonRow (Some r)
                               /\ description r = Some text)
            \/ resp = mkResponse 404 (JsonError (lit "Product not found"))
            \/ (status resp = 500
                /\ exists m, payload resp = JsonError m /\ m <> [])))
  /\ (let env0 := Scenario.calm Scenario.great_shirt in
      let one := id_request (lit "1") in
      let served :=
        Interleaved.generate_description env0
          (Interleaved.serving env0 DeleteProduct one) one
          (Scenario.world_of [Scenario.tee] 2) in
      fst served = Normal (mkResponse 200 (JsonRow None))
      /\ rows (db (snd served)) = []).
Proof.
  split; [apply generate_shape_during|].
  split; [exact (generate_shape env req w)|].
  split; reflexivity.
Qed.

(** X9. Only the generate-description route contacts the remote service:
    the other routes make no remote call; generate-description makes at
    most one per request, and only for a product it found in the table,
    with that product's name and attributes.  No request issues more than
    two queries. *)
Theorem remote_service_use (env : Env) (r : Route) (req : Request) (w : World) :
  let w' := snd (handle env r req w) in
  (r <> PostGenerateDescription -> remote_calls w' = remote_calls w)
  /\ (remote_calls w' = remote_calls w
      \/ exists product,
           In product (rows (db w))
           /\ remote_calls w'
              = call_for (Str (name product)) (column (attributes product))
                :: remote_calls w)
  /\ (queries w' <= queries w + 2)%nat.
Proof.
  assert (CRUD : forall (q : Statement) (k : list Product -> M Response),
            (forall rs w0, remote_calls (snd (k rs w0)) = remote_calls w0
                           /\ queries (snd (k rs w0)) = queries w0) ->
            let w' := snd (try_catch (bind (db_query env q) k) server_error w) in
            remote_calls w' = remote_calls w /\ (queries w' <= queries w + 2)%nat).
  { intros q k Hk. cbv zeta.
    unfold try_catch, server_error, bind, console_error, ret.
    destruct (db_query_frame env q w) as (Hr & Hq & _).
    destruct (db_query env q w) as [[rs|e] w1]; cbn [snd] in Hr, Hq.
    - destruct (Hk rs w1) as [Hr1 Hq1].
      destruct (k rs w1) as [[a|e] w2]; cbn [snd] in Hr1, Hq1;
        cbn [snd remote_calls queries];
        rewrite Hr1, Hr, Hq1, Hq; (split; [reflexivity | lia]).
    - cbn [snd remote_calls queries]. rewrite Hr, Hq. split; [reflexivity | lia]. }
  cbv zeta. destruct r; cbn [handle].
  - (* create *)
    unfold create, try_catch.
    destruct (negb (truthy (body_name req)) || negb (truthy (body_attributes req))).
    + cbn. split; [reflexivity|]. split; [now left | lia].
    + destruct (CRUD (InsertProduct (prepareValue (body_name req))
                        (prepareValue (body_attributes req)))
                     (fun newProduct => ret (mkResponse 201 (JsonRow (hd_error newProduct)))))
        as [Hr Hq]; [intros; now split|].
      unfold try_catch in Hr, Hq. split; [intros _; exact Hr|].
      split; [left; exact Hr | exact Hq].
  - destruct (CRUD SelectAll
                (fun allProducts => ret (mkResponse 200 (JsonRows allProducts))))
      as [Hr Hq]; [intros; now split|].
    split; [intros _; exact Hr|]. split; [left; exact Hr | exact Hq].
  - destruct (CRUD (SelectById (params_id req))
                (fun product => match product with
                                | [] => ret not_found
                                | row :: _ => ret (mkResponse 200 (JsonRow (Some row)))
                                end))
      as [Hr Hq]; [intros [|? ?] ?; now split|].
    split; [intros _; exact Hr|]. split; [left; exact Hr | exact Hq].
  - destruct (CRUD (UpdateDescription (prepareValue (body_description req)) (params_id req))
                (fun updateProduct => match updateProduct with
                                | [] => ret not_found
                                | row :: _ => ret (mkResponse 200 (JsonRow (Some row)))
                                end))
      as [Hr Hq]; [intros [|? ?] ?; now split|].
    split; [intros _; exact Hr|]. split; [left; exact Hr | exact Hq].
  - destruct (CRUD (DeleteById (params_id req))
                (fun deleteProduct => match deleteProduct with
                                | [] => ret not_found
                                | _ :: _ =>
                                    ret (mkResponse 200
                                           (JsonMessage (lit "Product successfully deleted")))
                                end))
      as [Hr Hq]; [intros [|? ?] ?; now split|].
    split; [intros _; exact Hr|]. split; [left; exact Hr | exact Hq].
  - (* generate-description *)
    split; [congruence|].
    cut (exists w',
           snd (generate_description env req w) = w'
           /\ (remote_calls w' = remote_calls w
               \/ exists product,
                    In product (rows (db w))
                    /\ remote_calls w'
                       = call_for (Str (name product)) (column (attributes product))
                         :: remote_calls w)
           /\ (queries w' <= queries w + 2)%nat).
    { intros (w' & -> & H). exact H. }
    unfold generate_description, try_catch, bind, console_error, ret.
    destruct (db_query_frame env (SelectById (params_id req)) w) as (Hr & Hq & _).
    destruct (db_query env (SelectById (params_id req)) w) as [[rs|e] w1] eqn:Es;
      cbn [snd] in Hr, Hq.
    2:{ eexists. split; [reflexivity|]. cbn [snd fst remote_calls queries].
        rewrite Hr, Hq. split; [now left | lia]. }
    destruct rs as [|product rest].
    { eexists. split; [reflexivity|]. cbn [snd fst remote_calls queries].
      rewrite Hr, Hq. split; [now left | lia]. }
    destruct (select_rows _ _ _ Es) as (i & Hi & Hrows & ->).
    assert (Hin : In product (rows (db w))).
    { assert (H : In product (filter (has_id i) (rows (db w))))
        by (rewrite <- Hrows; now left).
      now apply filter_In in H. }
    unfold console_log at 1. cbn [after_query db queries remote_calls console].
    fold (at_generation product w).
    destruct (AiFacts.generateDescription_calls env (Str (name product))
                (column (attributes product)) (at_generation product w)) as [Hc Hn].
    destruct (AiService.generateDescription env (Str (name product))
                (column (attributes product)) (at_generation product w))
      as [[text|e] w2]; cbn [snd at_generation remote_calls queries] in Hc, Hn.
    2:{ eexists. split; [reflexivity|]. cbn [snd fst remote_calls queries].
        rewrite Hc, Hn. split; [right; now exists product | lia]. }
    destruct (db_query_frame env (UpdateDescription (Some text) (params_id req)) w2)
      as (Hr2 & Hq2 & _).
    destruct (db_query env (UpdateDescription (Some text) (params_id req)) w2)
      as [[rs|e] w3]; cbn [snd] in Hr2, Hq2;
      (eexists; split; [reflexivity|]); cbn [snd fst remote_calls queries];
      rewrite Hr2, Hq2, Hc, Hn; (split; [right; now exists product | lia]).
Qed.



(** X14. The generation client checks for emptiness before it trims: text
    that is white space only is not refused.  The client returns the empty
    string, and the handler answers 200 and stores an empty description. *)
Theorem generate_blank_text_stored_empty (env : Env) (req : Request) (w : World)
    (i : Z) (product : Product) (fragments : list jsstring) :
  int4_in env (params_id req) = inr i ->
  lookup i (db w) = Some product ->
  store_fault env (queries w) = None ->
  store_fault env (S (queries w)) = None ->
  replicate_run env (length (remote_calls w))
      (call_for (Str (name product)) (column (attributes product)))
    = Replicate.Resolves (Replicate.OutArray fragments) ->
  concat fragments <> [] ->
  all_white_space (concat fragments) ->
  fst (AiService.generateDescription env (Str (name product))
         (column (attributes product)) w) = Normal []
  /\ exists w',
       generate_description env req w
       = (Normal (mkResponse 200
            (JsonRow (Some (set_description (Some []) product)))), w')
       /\ lookup i (db w') = Some (set_description (Some []) product).
Proof.
  intros Hi Hp Hf Hf1 Ho Hne Hws. split.
  - rewrite (@AiFacts.generateDescription_success env _ _ w fragments Ho Hne).
    now rewrite (trim_blank Hws).
  - destruct (@generate_from_outcome env req w i product fragments
                Hi Hp Hf Hf1 Ho Hne) as (w' & Hg & Hl & _).
    rewrite (trim_blank Hws) in Hg, Hl. now exists w'.
Qed.

Lemma generate_blank_text_stored_empty_witness :
  let env := Scenario.calm
               (Replicate.Resolves (Replicate.OutArray [lit " "; lit "  "])) in
  let w := Scenario.world_of [Scenario.described_tee] 2 in
  exists w',
    generate_description env (id_request (lit "1")) w
    = (Normal (mkResponse 200
         (JsonRow (Some (set_description (Some []) Scenario.described_tee)))), w')
    /\ lookup 1 (db w') = Some (set_description (Some []) Scenario.described_tee).
Proof.
  intros env w.
  exact (proj2 (@generate_blank_text_stored_empty env (id_request (lit "1")) w 1
                  Scenario.described_tee [lit " "; lit "  "]
                  eq_refl eq_refl eq_refl eq_refl eq_refl
                  (fun H => match H with eq_refl => I end) eq_refl)).
Defined.

(** An answer that is an error left the rows as they were. *)
Lemma error_keeps_rows (env : Env) (r : Route) (req : Request)
    (w : World) (resp : Response) (w' : World) :
  handle env r req w = (Normal resp, w') ->
  400 <= status resp ->
  rows (db w') = rows (db w).
Proof.
  destruct r; cbn [handle];
    unfold create, list_all, get, update, delete, generate_description,
      try_catch, server_error, bind, console_error, ret, not_found.
  - (* create *)
    destruct (negb (truthy (body_name req)) || negb (truthy (body_attributes req))).
    + now intros [= <- <-].
    + destruct (db_query env _ w) as [[rs|e] w1] eqn:E.
      * intros [= <- <-]. cbn. lia.
      * intros [= <- <-] _. cbn [db]. exact (throw_keeps_rows _ _ _ E).
  - (* list *)
    destruct (db_query env _ w) as [[rs|e] w1] eqn:E.
    + intros [= <- <-]. cbn. lia.
    + intros [= <- <-] _. cbn [db]. exact (throw_keeps_rows _ _ _ E).
  - (* get *)
    destruct (db_query env _ w) as [[rs|e] w1] eqn:E.
    + destruct (select_rows _ _ _ E) as (i & _ & _ & ->).
      destruct rs; intros [= <- <-]; [reflexivity | cbn; lia].
    + intros [= <- <-] _. cbn [db]. exact (throw_keeps_rows _ _ _ E).
  - (* update *)
    destruct (db_query env _ w) as [[rs|e] w1] eqn:E.
    + destruct (update_rows _ _ _ _ E) as (i & _ & -> & ->).
      destruct (filter (has_id i) (rows (db w))) eqn:F; cbn [map];
        intros [= <- <-]; [intros _ | cbn; lia].
      cbn [after_query db rows].
      apply StoreFacts.map_updated_absent. now apply filter_nil_find.
    + intros [= <- <-] _. cbn [db]. exact (throw_keeps_rows _ _ _ E).
  - (* delete *)
    destruct (db_query env _ w) as [[rs|e] w1] eqn:E.
    + destruct (delete_rows _ _ _ E) as (i & _ & -> & ->).
      destruct (filter (has_id i) (rows (db w))) eqn:F;
        intros [= <- <-]; [intros _ | cbn; lia].
      cbn [after_query db rows].
      apply StoreFacts.filter_absent. now apply filter_nil_find.
    + intros [= <- <-] _. cbn [db]. exact (throw_keeps_rows _ _ _ E).
  - (* generate-description *)
    destruct (db_query env (SelectById (params_id req)) w) as [[rs|e] w1] eqn:Es.
    2:{ intros [= <- <-] _. cbn [db]. exact (throw_keeps_rows _ _ _ Es). }
    destruct (select_rows _ _ _ Es) as (i & _ & _ & ->).
    destruct rs as [|product rest]; [now intros [= <- <-]|].
    unfold console_log at 1. cbn [after_query db queries remote_calls console].
    fold (at_generation product w).
    pose proof (AiFacts.generateDescription_read_only env (Str (name product))
                  (column (attributes product)) (at_generation product w)) as Hdb.
    destruct (AiService.generateDescription env (Str (name product))
                (column (attributes product)) (at_generation product w))
      as [[text|e] w2]; cbn [snd at_generation db] in Hdb.
    2:{ intros [= <- <-] _. cbn [db]. now rewrite Hdb. }
    destruct (db_query env _ w2) as [[rs|e] w3] eqn:Eu.
    + intros [= <- <-]. cbn. lia.
    + intros [= <- <-] _. cbn [db].
      rewrite (throw_keeps_rows _ _ _ Eu). now rewrite Hdb.
Qed.

(** X15. An answer of 400, 404 or 500 means that no record was written:
    for every route, when the status of the answer is 400 or more, the
    rows of the table are exactly what they were before the request. *)
Theorem error_answers_write_nothing (env : Env) (r : Route) (req : Request)
    (w : World) (resp : Response) (w' : World) :
  handle env r req w = (Normal resp, w') ->
  400 <= status resp ->
  rows (db w') = rows (db w).
Proof. exact (@error_keeps_rows env r req w resp w'). Qed.

Lemma error_answers_write_nothing_witness :
  let env := Scenario.calm Scenario.overloaded in
  let w := Scenario.world_of [Scenario.described_tee] 2 in
  rows (db (snd (handle env PostGenerateDescription (id_request (lit "1")) w)))
  = [Scenario.described_tee].
Proof.
  intros env w.
  refine (@error_answers_write_nothing env PostGenerateDescription
            (id_request (lit "1")) w _ _ eq_refl _).
  vm_compute. intros H. discriminate H.
Defined.

(* ================================================================== *)
(** ** The pages and the server together *)

Module PageFacts.

Lemma list_cases (env : Env) (req : Request) (w : World) (resp : Response)
    (w' : World) :
  list_all env req w = (Normal resp, w') ->
  resp = mkResponse 200 (JsonRows (order_by_id_desc (rows (db w))))
  \/ resp = generic_500.
Proof.
  unfold list_all, try_catch, server_error, bind, console_error, ret, db_query.
  destruct (store_fault env (queries w)).
  - intros [= <- _]. now right.
  - cbn [exec]. intros [= <- _]. now left.
Qed.

Lemma get_cases (env : Env) (req : Request) (w : World) (resp : Response)
    (w' : World) :
  get env req w = (Normal resp, w') ->
  (exists r, In r (rows (db w)) /\ resp = mkResponse 200 (JsonRow (Some r)))
  \/ resp = not_found
  \/ resp = generic_500.
Proof.
  unfold get, try_catch, server_error, bind, console_error, ret.
  destruct (db_query env _ w) as [[rs|e] w1] eqn:E.
  - destruct (select_rows _ _ _ E) as (i & _ & Hrows & _).
    destruct rs as [|r rest]; intros [= <- _]; [right; now left|].
    left. exists r. split; [|reflexivity].
    assert (H : In r (filter (has_id i) (rows (db w))))
      by (rewrite <- Hrows; now left).
    now apply filter_In in H.
  - intros [= <- _]. right. now right.
Qed.

Lemma create_cases (env : Env) (req : Request) (w : World) (resp : Response)
    (w' : World) :
  create env req w = (Normal resp, w') ->
  (exists p, resp = mkResponse 201 (JsonRow (Some p)))
  \/ status resp = 400
  \/ status resp = 500.
Proof.
  unfold create, try_catch, server_error, bind, console_error, ret, db_query.
  repeat (cbn [exec]; case_innermost); cbn [hd_error]; intros [= <- _];
    first [ left; eexists; reflexivity
          | right; left; reflexivity
          | right; right; reflexivity ].
Qed.

Lemma ok_status (r : Response) :
  ok r = true <-> 200 <= status r <= 299.
Proof.
  unfold ok. rewrite andb_true_iff, !Z.leb_le. tauto.
Qed.

Lemma not_ok (r : Response) : 400 <= status r -> ok r = false.
Proof.
  intros H. destruct (ok r) eqn:E; [|reflexivity].
  apply ok_status in E. lia.
Qed.

End PageFacts.

Import PageFacts.

(** X16. The detail page does not look at the status of the answer to
    its DELETE.  When the delete handler answers with an error (404, or
    500 on a store failure), no record was removed, yet the page announces
    that the product was deleted and goes back to the list.  Only a fetch
    that is rejected is reported as a failure, and a declined confirmation
    sends no request. *)
Theorem delete_announced_whatever_the_answer (env : Env) (req : Request)
    (w : World) (resp : Response) (w' : World) :
  delete env req w = (Normal resp, w') ->
  400 <= status resp ->
  rows (db w') = rows (db w)
  /\ Detail.handleDelete true (Responded resp)
     = Detail.mkEffects true [lit "Product deleted! Redirecting to home..."]
                        (Some (lit "/"))
  /\ (forall err,
        Detail.handleDelete true (Rejected err)
        = Detail.mkEffects true [lit "Failed to delete: " ++ message err] None)
  /\ (forall got, Detail.handleDelete false got = Detail.mkEffects false [] None).
Proof.
  intros Hd Hs. split; [|repeat split].
  exact (@error_keeps_rows env DeleteProduct req w resp w' Hd Hs).
Qed.

Lemma delete_announced_whatever_the_answer_witness :
  let env := Scenario.broken_store Scenario.connection_lost in
  let w := Scenario.world_of [Scenario.tee] 2 in
  let answer := handle env DeleteProduct (id_request (lit "1")) w in
  fst answer = Normal generic_500
  /\ rows (db (snd answer)) = [Scenario.tee]
  /\ Detail.handleDelete true (Responded generic_500)
     = Detail.mkEffects true [lit "Product deleted! Redirecting to home..."]
                        (Some (lit "/")).
Proof.
  intros env w answer. split; [reflexivity|].
  assert (Hs : 400 <= status generic_500) by (vm_compute; intros H; discriminate H).
  pose (T := @delete_announced_whatever_the_answer env (id_request (lit "1")) w
               generic_500 (snd answer) eq_refl Hs).
  split; [exact (proj1 T) | exact (proj1 (proj2 T))].
Defined.

(** X17. What the detail page does with the answer of the
    generate-description handler, whatever the server does for other
    requests while the handler awaits the remote call.  On 200 with a
    record the page holds that record, whose description is text, with its
    generation flags cleared and no alert.  On 200 with an empty body (the
    record was removed meanwhile) the page fails to read the body: it
    alerts "AI Error: " followed by the message of that failure and keeps
    what it held, with that message as its generation error.  On 404 and
    500 it alerts "AI Error: " followed by the server's message, which is
    never empty, and keeps what it held with that message as its
    generation error: the page never falls back to its own message. *)
Theorem generation_answer_on_page (syntax_error : Payload -> error)
    (env : Env) (meanwhile : World -> World) (req : Request) (w : World)
    (resp : Response) (w' : World) (s : Detail.State) :
  Interleaved.generate_description env meanwhile req w = (Normal resp, w') ->
  (status resp = 200 /\
   exists r text,
     payload resp = JsonRow (Some r) /\ description r = Some text
     /\ Detail.handleGenerateAI syntax_error (Responded resp) s
        = (Detail.setProduct (Some (Detail.fresh (JsRow r))) (Detail.waiting s), []))
  \/ (resp = mkResponse 200 (JsonRow None) /\
      Detail.handleGenerateAI syntax_error (Responded resp) s
      = (Detail.setProduct
           (Some (Detail.failed (Detail.product s)
                    (message (syntax_error (JsonRow None)))))
           (Detail.waiting s),
         [lit "AI Error: " ++ message (syntax_error (JsonRow None))]))
  \/ (400 <= status resp /\
      exists m,
        payload resp = JsonError m /\ m <> []
        /\ Detail.handleGenerateAI syntax_error (Responded resp) s
           = (Detail.setProduct (Some (Detail.failed (Detail.product s) m))
                                (Detail.waiting s),
              [lit "AI Error: " ++ m])).
Proof.
  intros Hg.
  destruct (generate_shape_during env meanwhile req w) as (resp0 & H0 & Hcases).
  rewrite Hg in H0. injection H0 as <-.
  assert (Herr : forall m, payload resp = JsonError m -> m <> [] ->
                 400 <= status resp ->
                 Detail.handleGenerateAI syntax_error (Responded resp) s
                 = (Detail.setProduct (Some (Detail.failed (Detail.product s) m))
                                      (Detail.waiting s),
                    [lit "AI Error: " ++ m])).
  { intros m Hp Hm Hs. unfold Detail.handleGenerateAI.
    rewrite (not_ok _ Hs). cbn [negb]. unfold json. rewrite Hp.
    cbn [error_of]. rewrite (WorldFacts.or_else_nonempty _ Hm). reflexivity. }
  destruct Hcases as [(Hs & r & text & Hp & Hd) | [-> | [-> | (Hs & m & Hp & Hm)]]].
  - left. split; [exact Hs|]. exists r, text. split; [exact Hp|]. split; [exact Hd|].
    unfold Detail.handleGenerateAI.
    assert (Hok : ok resp = true) by (apply ok_status; lia).
    rewrite Hok. cbn [negb]. unfold json. now rewrite Hp.
  - right. left. split; reflexivity.
  - right. right. split; [cbn; lia|]. exists (lit "Product not found").
    split; [reflexivity|]. split; [discriminate|].
    apply Herr; [reflexivity | discriminate | cbn; lia].
  - right. right. split; [lia|]. exists m. split; [exact Hp|]. split; [exact Hm|].
    apply Herr; [exact Hp | exact Hm | lia].
Qed.

Lemma generation_answer_on_page_witness :
  let env := Scenario.calm Scenario.great_shirt in
  let one := id_request (lit "1") in
  let w := Scenario.world_of [Scenario.described_tee] 2 in
  let s := Detail.mkState (Some (Detail.fresh (JsRow Scenario.described_tee)))
             false None in
  let unexpected_end := fun _ : Payload => Error (lit "Unexpected end of JSON input") in
  fst (Interleaved.generate_description env
         (Interleaved.serving env DeleteProduct one) one w)
  = Normal (mkResponse 200 (JsonRow None))
  /\ Detail.handleGenerateAI unexpected_end
       (Responded (mkResponse 200 (JsonRow None))) s
     = (Detail.mkState
          (Some (Detail.mkShown (Some (JsRow Scenario.described_tee))
                   (Some false) (Some (lit "Unexpected end of JSON input"))))
          false None,
        [lit "AI Error: Unexpected end of JSON input"]).
Proof.
  intros env one w s unexpected_end. split; [reflexivity|].
  destruct (@generation_answer_on_page unexpected_end env
              (Interleaved.serving env DeleteProduct one) one w
              (mkResponse 200 (JsonRow None))
              (snd (Interleaved.generate_description env
                      (Interleaved.serving env DeleteProduct one) one w))
              s eq_refl)
    as [(_ & r & text & Hp & _) | [(_ & Hh) | (Hs & _)]].
  - discriminate Hp.
  - exact Hh.
  - exfalso. apply Hs. reflexivity.
Defined.

(** X18. What the list page holds after [fetchProducts], whatever the
    list handler answers: loading is over and the form is as it was; on
    200 the page holds all the stored records ordered by id descending and
    no error; on 500 it keeps the products it had and its error is
    "Failed to fetch products" (the server's text is not shown). *)
Theorem listing_on_page (syntax_error : Payload -> error) (env : Env)
    (req : Request) (w : World) (resp : Response) (w' : World) (s : Home.State) :
  list_all env req w = (Normal resp, w') ->
  let s' := Home.fetchProducts syntax_error (Responded resp) s in
  Home.isLoading s' = false
  /\ Home.formName s' = Home.formName s
  /\ Home.formAttributes s' = Home.formAttributes s
  /\ ((status resp = 200
       /\ Home.error_ s' = None
       /\ exists l, Home.products s' = JsRows l
                    /\ Permutation l (rows (db w))
                    /\ StronglySorted by_id_desc l)
      \/ (status resp = 500
          /\ Home.error_ s' = Some (lit "Failed to fetch products")
          /\ Home.products s' = Home.products s)).
Proof.
  intros Hl s'. subst s'.
  destruct (list_cases _ _ _ Hl) as [-> | ->].
  - repeat (split; [reflexivity|]). left. repeat (split; [reflexivity|]).
    exists (order_by_id_desc (rows (db w))). split; [reflexivity|]. split.
    + apply StoreFacts.order_by_id_desc_perm.
    + apply StoreFacts.order_by_id_desc_sorted.
  - repeat (split; [reflexivity|]). right. repeat split.
Qed.

Lemma listing_on_page_witness :
  let env := Scenario.broken_store Scenario.connection_lost in
  let w := Scenario.world_of [Scenario.tee] 2 in
  let s := Home.mkState (JsRows [Scenario.tee]) false None (lit "Nike") [] in
  let s' := Home.fetchProducts (fun _ => Error []) (Responded generic_500) s in
  Home.isLoading s' = false
  /\ Home.error_ s' = Some (lit "Failed to fetch products")
  /\ Home.products s' = JsRows [Scenario.tee].
Proof.
  intros env w s s'.
  destruct (@listing_on_page (fun _ => Error []) env (id_request []) w
              generic_500 (snd (list_all env (id_request []) w)) s eq_refl)
    as (Hl & _ & _ & [(Hs & _) | (_ & He & Hp)]).
  - discriminate Hs.
  - split; [exact Hl|]. split; [exact He | exact Hp].
Defined.

(** X19. What the detail page holds after [fetchProduct].  While the
    router has no id the page does nothing and keeps loading.  With an id,
    whatever the get handler answers, loading is over; on 200 the page
    holds a record of the table and no error; on 404 and on 500 alike it
    keeps what it had and its error is "Product not found". *)
Theorem product_on_page (syntax_error : Payload -> error) (env : Env)
    (p : jsstring) (w : World) (resp : Response) (w' : World) (s : Detail.State) :
  p <> [] ->
  get env (id_request p) w = (Normal resp, w') ->
  let s' := Detail.fetchProduct syntax_error (Some p) (Responded resp) s in
  Detail.isLoading s' = false
  /\ ((status resp = 200
       /\ Detail.error_ s' = None
       /\ exists r, In r (rows (db w))
                    /\ Detail.product s' = Some (Detail.fresh (JsRow r)))
      \/ (400 <= status resp
          /\ Detail.error_ s' = Some (lit "Product not found")
          /\ Detail.product s' = Detail.product s))
  /\ (forall got, Detail.fetchProduct syntax_error None got s = s).
Proof.
  intros Hp Hg s'. subst s'.
  destruct p as [|c p]; [congruence|].
  destruct (get_cases _ _ _ Hg) as [(r & Hin & ->) | [-> | ->]].
  - split; [reflexivity|]. split; [|reflexivity].
    left. repeat (split; [reflexivity|]). now exists r.
  - split; [reflexivity|]. split; [|reflexivity].
    right. split; [cbn; lia|]. split; reflexivity.
  - split; [reflexivity|]. split; [|reflexivity].
    right. split; [cbn; lia|]. split; reflexivity.
Qed.

Lemma product_on_page_witness :
  let env := Scenario.broken_store Scenario.connection_lost in
  let w := Scenario.world_of [Scenario.tee] 2 in
  let s' := Detail.fetchProduct (fun _ => Error []) (Some (lit "1"))
              (Responded generic_500) Detail.initial in
  fst (get env (id_request (lit "1")) w) = Normal generic_500
  /\ Detail.isLoading s' = false
  /\ Detail.error_ s' = Some (lit "Product not found").
Proof.
  intros env w s'. split; [reflexivity|].
  destruct (@product_on_page (fun _ => Error []) env (lit "1") w generic_500
              (snd (get env (id_request (lit "1")) w)) Detail.initial
              (fun H => match H with eq_refl => I end) eq_refl)
    as (Hl & [(Hs & _) | (_ & He & _)] & _).
  - discriminate Hs.
  - split; [exact Hl | exact He].
Defined.



(** X21. When the create handler refuses what the form holds (400 for a
    field that is empty, 500 when the store refuses or fails), the list
    page alerts "Failed to add product", keeps its whole state, the form
    as typed included, and does not refresh its list; no record was added. *)
Theorem add_product_refused (syntax_error : Payload -> error) (env : Env)
    (w : World) (resp : Response) (w' : World) (got : Fetched) (s : Home.State) :
  create env (Home.add_request s) w = (Normal resp, w') ->
  status resp <> 201 ->
  Home.handleAddProduct syntax_error (Responded resp) got s
  = (s, [lit "Failed to add product"])
  /\ rows (db w') = rows (db w).
Proof.
  intros Hc Hs.
  assert (H400 : 400 <= status resp).
  { destruct (create_cases _ _ _ Hc) as [(p & ->) | [H | H]];
      [now cbn in Hs | lia | lia]. }
  split.
  - unfold Home.handleAddProduct. now rewrite (not_ok _ H400).
  - exact (@error_keeps_rows env PostProducts (Home.add_request s) w resp w' Hc H400).
Qed.

Lemma add_product_refused_witness :
  let env := Scenario.calm Scenario.nothing in
  let w := Scenario.world_of [Scenario.tee] 2 in
  let s := Home.mkState (JsRows [Scenario.tee]) false None
             Scenario.long_name (lit "Mesh, White") in
  Home.handleAddProduct (fun _ => Error []) (Responded generic_500)
    (Rejected (Error [])) s
  = (s, [lit "Failed to add product"])
  /\ rows (db (snd (create env (Home.add_request s) w))) = [Scenario.tee].
Proof.
  intros env w s.
  refine (@add_product_refused (fun _ => Error []) env w generic_500
            (snd (create env (Home.add_request s) w)) (Rejected (Error [])) s
            eq_refl _).
  intros H. discriminate H.
Defined.

(* ================================================================== *)
(** ** The fields that never change *)

Module FieldFacts.

Lemma same_updated (d : option jsstring) (i : Z) (p : Product) :
  same_but_description p (updated d i p).
Proof. unfold updated. destruct (has_id i p); now repeat split. Qed.

Lemma same_trans (p q r : Product) :
  same_but_description p q -> same_but_description q r ->
  same_but_description p r.
Proof.
  unfold same_but_description. intros (A & B & C & D) (E & F & G & H).
  repeat split; congruence.
Qed.

Lemma exec_descends (before : list Product) (next : Z)
    (int4 : jsstring -> error + Z) (now : Z) (q : Statement) (d : Database) :
  descends_from before next d ->
  descends_from before next (snd (exec int4 now q d)).
Proof.
  intros [Hseq Hrows]. destruct q as [n a| |p|ds p|p]; cbn [exec].
  - destruct n as [n|];
      [|destruct (INT4_MAX <? next_id d);
        [now split | split; [simpl; lia | exact Hrows]]].
    destruct (varchar NAME_MAX n); [|now split].
    destruct (INT4_MAX <? next_id d); [now split|].
    split; [simpl; lia|]. simpl. intros p' Hin.
    apply in_app_or in Hin. destruct Hin as [Hin | [<- | []]].
    + now apply Hrows.
    + right. simpl. exact Hseq.
  - now split.
  - destruct (int4 p); now split.
  - destruct (int4 p) as [e|i]; [now split|]. split; [exact Hseq|].
    simpl. intros p' Hin. apply in_map_iff in Hin.
    destruct Hin as (p0 & <- & Hin0).
    destruct (Hrows p0 Hin0) as [(p1 & Hin1 & Hsame) | Hnew].
    + left. exists p1. split; [exact Hin1|].
      eapply same_trans; [exact Hsame | apply same_updated].
    + right. now rewrite StoreFacts.id_updated.
  - destruct (int4 p) as [e|i]; [now split|]. split; [exact Hseq|].
    simpl. intros p' Hin. apply filter_In in Hin. now apply Hrows.
Qed.

Lemma handle_descends (before : list Product) (next : Z) (env : Env)
    (r : Route) (req : Request) :
  maintains (of_table (descends_from before next)) (handle env r req).
Proof.
  destruct r; unfold handle, create, list_all, get, update, delete,
    generate_description, server_error;
    MaintainsFacts.maintained ltac:(apply exec_descends).
Qed.

Lemma serve_descends (before : list Product) (next : Z) (env : Env)
    (rs : list (Route * Request)) (w : World) :
  descends_from before next (db w) ->
  descends_from before next (db (snd (serve env rs w))).
Proof.
  revert w. induction rs as [|[r req] rest IH]; intros w Hw; simpl; [exact Hw|].
  pose proof (@handle_descends before next env r req w Hw) as H1.
  destruct (handle env r req w) as [c w1]. specialize (IH w1 H1).
  now destruct (serve env rest w1) as [cs w2].
Qed.

End FieldFacts.

(** X22. Only the description of a record ever changes.  Whatever
    requests are served, whatever the store and the remote service do,
    every record of the table afterwards either has the id, name,
    attributes and creation time of a record that was stored before, or
    was created since (its id is at least the value the sequence had). *)
Theorem only_description_changes (env : Env) (rs : list (Route * Request))
    (w : World) (p' : Product) :
  In p' (rows (db (snd (serve env rs w)))) ->
  (exists p, In p (rows (db w)) /\ same_but_description p p')
  \/ next_id (db w) <= id p'.
Proof.
  assert (H0 : descends_from (rows (db w)) (next_id (db w)) (db w)).
  { split; [lia|]. intros p Hp. left. exists p. now repeat split. }
  destruct (FieldFacts.serve_descends env rs w H0) as [_ H].
  exact (H p').
Qed.

Lemma only_description_changes_witness :
  let env := Scenario.calm Scenario.great_shirt in
  let w := Scenario.world_of [Scenario.described_tee] 2 in
  let p' := set_description (Some (lit "Great shirt.")) Scenario.tee in
  (exists p, In p [Scenario.described_tee] /\ same_but_description p p')
  \/ 2 <= id p'.
Proof.
  intros env w p'.
  exact (@only_description_changes env
           [(PostGenerateDescription, id_request (lit "1"))] w p'
           (or_introl eq_refl)).
Defined.

(** X23. What the description area of the detail page displays once
    [handleGenerateAI] is over, whatever the server does for other
    requests while the generate-description handler awaits the remote
    call.  After a 200 with a record it displays the new description,
    unless that is the empty string, which the page displays as "not
    generated yet".  After a 200 with an empty body it displays the
    message of the failure to read the body, when that has one.  After a
    404 or a 500 it displays the server's error message, even when the
    record has a description from an earlier generation. *)
Theorem view_after_generation (syntax_error : Payload -> error) (env : Env)
    (meanwhile : World -> World) (req : Request) (w : World) (resp : Response)
    (w' : World) (s : Detail.State) :
  Interleaved.generate_description env meanwhile req w = (Normal resp, w') ->
  exists shown,
    Detail.product (fst (Detail.handleGenerateAI syntax_error (Responded resp) s))
    = Some shown
    /\ ((status resp = 200 /\
         exists r text,
           payload resp = JsonRow (Some r) /\ description r = Some text
           /\ Detail.view shown
              = match text with
                | [] => Detail.NotGenerated
                | _ :: _ => Detail.ShowsDescription text
                end)
        \/ (resp = mkResponse 200 (JsonRow None) /\
            (message (syntax_error (JsonRow None)) <> [] ->
             Detail.view shown
             = Detail.ShowsError (message (syntax_error (JsonRow None)))))
        \/ (400 <= status resp /\
            exists m, payload resp = JsonError m /\ m <> []
                      /\ Detail.view shown = Detail.ShowsError m)).
Proof.
  intros Hg.
  destruct (generate_shape_during env meanwhile req w) as (resp0 & H0 & Hcases).
  rewrite Hg in H0. injection H0 as <-.
  assert (Hview : forall m, m <> [] ->
                  Detail.view (Detail.failed (Detail.product s) m)
                  = Detail.ShowsError m).
  { intros m Hm. destruct m as [|c m]; [congruence|].
    unfold Detail.view, Detail.failed. now destruct (Detail.product s). }
  assert (Herr : forall m, payload resp = JsonError m -> m <> [] ->
                 400 <= status resp ->
                 exists shown,
                   Detail.product
                     (fst (Detail.handleGenerateAI syntax_error (Responded resp) s))
                   = Some shown
                   /\ Detail.view shown = Detail.ShowsError m).
  { intros m Hp Hm Hs. unfold Detail.handleGenerateAI.
    rewrite (not_ok _ Hs). cbn [negb]. unfold json. rewrite Hp.
    cbn [error_of]. rewrite (WorldFacts.or_else_nonempty _ Hm).
    cbn [fst Detail.setProduct Detail.product message].
    eexists. split; [reflexivity|]. now apply Hview. }
  destruct Hcases as [(Hs & r & text & Hp & Hd) | [-> | [-> | (Hs & m & Hp & Hm)]]].
  - assert (Hok : ok resp = true) by (apply ok_status; lia).
    unfold Detail.handleGenerateAI. rewrite Hok. cbn [negb].
    unfold json. rewrite Hp. cbn [fst Detail.setProduct Detail.product].
    eexists. split; [reflexivity|]. left. split; [exact Hs|].
    exists r, text. split; [reflexivity|]. split; [exact Hd|].
    unfold Detail.view, Detail.fresh, Detail.description_of.
    cbn [Detail.isGenerating Detail.genError Detail.data]. rewrite Hd.
    now destruct text.
  - eexists. split; [reflexivity|]. right. left. split; [reflexivity|].
    apply Hview.
  - destruct (Herr (lit "Product not found") eq_refl) as (shown & H1 & H2);
      [discriminate | cbn; lia |].
    exists shown. split; [exact H1|]. right. right. split; [cbn; lia|].
    exists (lit "Product not found"). split; [reflexivity|].
    split; [discriminate | exact H2].
  - destruct (Herr m Hp Hm) as (shown & H1 & H2); [lia|].
    exists shown. split; [exact H1|]. right. right. split; [lia|].
    exists m. now repeat split.
Qed.

Lemma view_after_generation_witness :
  let env := Scenario.calm Scenario.overloaded in
  let w := Scenario.world_of [Scenario.described_tee] 2 in
  let s := Detail.mkState (Some (Detail.fresh (JsRow Scenario.described_tee)))
             false None in
  let m := lit "Request failed with status 429 Too Many Requests" in
  exists shown,
    Detail.product
      (fst (Detail.handleGenerateAI (fun _ => Error [])
              (Responded (mkResponse 500 (JsonError m))) s))
    = Some shown
    /\ Detail.view shown = Detail.ShowsError m.
Proof.
  intros env w s m.
  destruct (@view_after_generation (fun _ => Error []) env Interleaved.alone
              (id_request (lit "1")) w (mkResponse 500 (JsonError m))
              (snd (generate_description env (id_request (lit "1")) w)) s eq_refl)
    as (shown & H1 & [(Hs & _) | [(Hr & _) | (_ & m' & Hp & _ & Hv)]]).
  - discriminate Hs.
  - discriminate Hr.
  - injection Hp as <-. exists shown. now split.
Defined.
